(** * Wine-quality exploratory analysis: the class rule and the class buckets

    A shallow embedding of the part of [wine_quality_assignment.py] that
    computes something: the function [map_quality_to_class], the statement
    that adds the column [quality_class] to the frame [df], the statement
    that builds [df_classed], and the function [values_by_class] that
    feeds the box plots.  Plotting and printing are not modelled.

    The pandas objects are modelled by what the script uses of them:
    a frame is an index (the row labels) and a dictionary from column
    names to typed columns of equal length. *)

From Stdlib Require Import ZArith QArith Qround Qabs Lia Lqa.
From stdpp Require Import base strings list gmap sorting.

Open Scope Z_scope.

(** ** Numbers as Python compares them *)

(** A 64-bit float.  The script never does arithmetic on the values it
    groups, it only compares quality scores with the literals 4 and 7, so
    a finite float is represented by the rational it denotes. *)
Inductive float64 : Type :=
  | NaN
  | Inf (negative : bool)
  | Fin (q : Q).

(** The comparisons [q < k], [q > k] and [q <= k] of the source, for [k] an
    integer literal.  Every comparison with NaN is false. *)
Class PyNumber (A : Type) := {
  lt_lit : A → Z → bool;
  gt_lit : A → Z → bool;
  le_lit : A → Z → bool
}.

#[export] Instance int_number : PyNumber Z := {|
  lt_lit q k := q <? k;
  gt_lit q k := q >? k;
  le_lit q k := q <=? k
|}.

Definition float_cmp (x : float64) (k : Z) : option comparison :=
  match x with
  | NaN => None
  | Inf true => Some Lt
  | Inf false => Some Gt
  | Fin q => Some (q ?= inject_Z k)%Q
  end.

#[export] Instance float_number : PyNumber float64 := {|
  lt_lit x k := match float_cmp x k with Some Lt => true | _ => false end;
  gt_lit x k := match float_cmp x k with Some Gt => true | _ => false end;
  le_lit x k := match float_cmp x k with Some Lt | Some Eq => true | _ => false end
|}.

(** ** The class rule *)

(** [map_quality_to_class], lines 199-207.  The result is a Python string or
    [None]; [None] is the last branch, reached by [q == 4] on integers. *)
Definition map_quality_to_class {A} `{PyNumber A} (q : A) : option string :=
  if lt_lit q 4 then Some "Bad"%string
  else if gt_lit q 4 && le_lit q 7 then Some "Good"%string
  else if gt_lit q 7 then Some "Very Good"%string
  else None.

(** The four outcomes the specification names, and the value the code
    returns for each of them. *)
Inductive QualityClass : Type := Bad | Good | VeryGood | Unclassified.

Definition class_value (c : QualityClass) : option string :=
  match c with
  | Bad => Some "Bad"%string
  | Good => Some "Good"%string
  | VeryGood => Some "Very Good"%string
  | Unclassified => None
  end.

(** ** Exceptions *)

Inductive exn : Type :=
  | KeyError (key : string)
  | NameError (name : string)
  | TypeError.

Inductive result (A : Type) : Type :=
  | Ok (a : A)
  | Raise (e : exn).
Arguments Ok {A} a.
Arguments Raise {A} e.

#[export] Instance result_ret : MRet result := λ A a, Ok a.
#[export] Instance result_bind : MBind result := λ A B f r,
  match r with
  | Ok a => f a
  | Raise e => Raise e
  end.

Definition returns {A} (r : result A) : Prop := ∃ a, r = Ok a.

(** ** Columns, series and frames *)

(** A column holds a typed array: [int64], [float64], or [object] with
    strings and [None] as entries. *)
Inductive ndarray : Type :=
  | IntArray (xs : list Z)
  | FloatArray (xs : list float64)
  | ObjArray (xs : list (option string)).

Inductive scalar : Type :=
  | SInt (z : Z)
  | SFloat (x : float64)
  | SObj (o : option string).

Definition arr_length (a : ndarray) : nat :=
  match a with
  | IntArray xs => length xs
  | FloatArray xs => length xs
  | ObjArray xs => length xs
  end.

(** The entry at position [i] of a column. *)
Definition arr_lookup (a : ndarray) (i : nat) : option scalar :=
  match a with
  | IntArray xs => SInt <$> xs !! i
  | FloatArray xs => SFloat <$> xs !! i
  | ObjArray xs => SObj <$> xs !! i
  end.

(** Boolean indexing: keep the entries whose mask bit is set. *)
Fixpoint mask_filter {A} (mask : list bool) (l : list A) : list A :=
  match mask, l with
  | b :: mask', x :: l' =>
      if b then x :: mask_filter mask' l' else mask_filter mask' l'
  | _, _ => []
  end.

Definition arr_select (mask : list bool) (a : ndarray) : ndarray :=
  match a with
  | IntArray xs => IntArray (mask_filter mask xs)
  | FloatArray xs => FloatArray (mask_filter mask xs)
  | ObjArray xs => ObjArray (mask_filter mask xs)
  end.

(** [isna]: NaN in a float column, [None] in an object column. *)
Definition arr_isna (a : ndarray) : list bool :=
  match a with
  | IntArray xs => (λ _, false) <$> xs
  | FloatArray xs => (λ x, match x with NaN => true | _ => false end) <$> xs
  | ObjArray xs => (λ o, match o with None => true | Some _ => false end) <$> xs
  end.

(** [col == s] for a string literal [s]: elementwise, false on numbers. *)
Definition arr_eq_str (a : ndarray) (s : string) : list bool :=
  match a with
  | IntArray xs => (λ _, false) <$> xs
  | FloatArray xs => (λ _, false) <$> xs
  | ObjArray xs => (λ o, bool_decide (o = Some s)) <$> xs
  end.

(** A series is a column with its row labels.  A frame is the row labels
    and the columns by name.  Every series the script combines with a frame
    was taken from that same frame, so pandas' alignment on labels is the
    identity and rows are matched by position. *)
Record Series : Type := mkSeries {
  s_index : list nat;
  values : ndarray
}.

Record DataFrame : Type := mkFrame {
  index : list nat;
  data : gmap string ndarray
}.

(** [d[c]] *)
Definition getitem (d : DataFrame) (c : string) : result Series :=
  match data d !! c with
  | Some col => Ok (mkSeries (index d) col)
  | None => Raise (KeyError c)
  end.

(** [d[c] = s]: replaces the column if it exists, adds it otherwise.  The
    script assigns a series computed from a column of [d] itself, so the
    lengths agree. *)
Definition setitem (d : DataFrame) (c : string) (s : Series) : DataFrame :=
  mkFrame (index d) (<[c := values s]> (data d)).

(** [s.apply(map_quality_to_class)].  An empty series is returned as it
    is, with the type it has; the function is not called.  On numbers the
    function is applied to each entry and the results form an object
    column.  On an object column the comparison of a string or [None] with
    4 raises. *)
Definition apply_map_quality_to_class (s : Series) : result Series :=
  match values s with
  | IntArray [] | FloatArray [] | ObjArray [] => Ok s
  | IntArray qs => Ok (mkSeries (s_index s) (ObjArray (map_quality_to_class <$> qs)))
  | FloatArray qs => Ok (mkSeries (s_index s) (ObjArray (map_quality_to_class <$> qs)))
  | ObjArray (_ :: _) => Raise TypeError
  end.

(** [s == label] *)
Definition eq_str (s : Series) (label : string) : list bool :=
  arr_eq_str (values s) label.

(** [d.dropna(subset=[c])]: a new frame without the rows that are missing
    in column [c]. *)
Definition dropna (d : DataFrame) (c : string) : result DataFrame :=
  s ← getitem d c;
  let keep := negb <$> arr_isna (values s) in
  Ok (mkFrame (mask_filter keep (index d)) (arr_select keep <$> data d)).

(** [d.loc[mask, c]] for a boolean mask.  The script computes the mask from
    a column of [d] itself, so it has one bit per row. *)
Definition loc (d : DataFrame) (mask : list bool) (c : string) : result Series :=
  s ← getitem d c;
  Ok (mkSeries (mask_filter mask (s_index s)) (arr_select mask (values s))).

(** ** The script, on frames *)

(** Line 209: [df['quality_class'] = df['quality'].apply(map_quality_to_class)]. *)
Definition add_quality_class (df : DataFrame) : result DataFrame :=
  q ← getitem df "quality";
  cls ← apply_map_quality_to_class q;
  Ok (setitem df "quality_class" cls).

(** Line 212: [df.dropna(subset=['quality_class']).copy()], the value of
    [df_classed]. *)
Definition drop_unclassified (df : DataFrame) : result DataFrame :=
  dropna df "quality_class".

(** [df_classed.loc[df_classed['quality_class'] == label, column]], the
    expression that lines 217-219 repeat for the three labels. *)
Definition loc_class (df_classed : DataFrame) (label column : string) : result Series :=
  qc ← getitem df_classed "quality_class";
  loc df_classed (eq_str qc label) column.

(** [values_by_class], lines 215-220.  The source reads the global
    [df_classed]; here it is the first argument. *)
Definition values_by_class (df_classed : DataFrame) (column : string) : result (list ndarray) :=
  bad ← loc_class df_classed "Bad" column;
  good ← loc_class df_classed "Good" column;
  very_good ← loc_class df_classed "Very Good" column;
  Ok [values bad; values good; values very_good].

(** The labels of the three buckets, in the order of the returned list. *)
Definition bucket_labels : list string := ["Bad"; "Good"; "Very Good"]%string.

(** Lines 209-220 in sequence: classify, drop, group. *)
Definition group_values (df : DataFrame) (column : string) : result (list ndarray) :=
  df1 ← add_quality_class df;
  df_classed ← drop_unclassified df1;
  values_by_class df_classed column.

(** The three [loc] expressions before [.values] is taken, with the row
    labels they still carry. *)
Definition series_by_class (df_classed : DataFrame) (column : string) : result (list Series) :=
  bad ← loc_class df_classed "Bad" column;
  good ← loc_class df_classed "Good" column;
  very_good ← loc_class df_classed "Very Good" column;
  Ok [bad; good; very_good].

Definition group_series (df : DataFrame) (column : string) : result (list Series) :=
  df1 ← add_quality_class df;
  df_classed ← drop_unclassified df1;
  series_by_class df_classed column.

(** ** The script, on the interpreter's store *)

(** Frames are objects.  A global name holds a reference to a frame on the
    heap; [df[c] = s] changes the frame behind the reference, [dropna] and
    [copy] each return a new object. *)
Record store : Type := mkStore {
  heap : gmap nat DataFrame;
  globals : gmap string nat
}.

Definition read_global (σ : store) (x : string) : result (nat * DataFrame) :=
  match globals σ !! x with
  | Some r =>
      match heap σ !! r with
      | Some d => Ok (r, d)
      | None => Raise (NameError x)
      end
  | None => Raise (NameError x)
  end.

Definition alloc (σ : store) (d : DataFrame) : nat * store :=
  let r := fresh (dom (heap σ)) in
  (r, mkStore (<[r := d]> (heap σ)) (globals σ)).

(** Line 209, executed: the frame behind [df] gets the new column. *)
Definition line_209 (σ : store) : result store :=
  '(r, d) ← read_global σ "df";
  d' ← add_quality_class d;
  Ok (mkStore (<[r := d']> (heap σ)) (globals σ)).

(** Line 212, executed: [dropna] builds a frame, [copy] builds another,
    and [df_classed] is bound to the copy. *)
Definition line_212 (σ : store) : result store :=
  '(_, d) ← read_global σ "df";
  dropped ← drop_unclassified d;
  let '(_, σ1) := alloc σ dropped in
  let '(r2, σ2) := alloc σ1 dropped in
  Ok (mkStore (heap σ2) (<["df_classed"%string := r2]> (globals σ2))).

(** The store after line 53: one frame, bound to [df]. *)
Definition initial_store (df0 : DataFrame) : store :=
  mkStore {[0%nat := df0]} {["df"%string := 0%nat]}.

(** ** The calls that read the frames *)

(** The namespace of the script holds, beside the names bound to frames,
    the names that [def] statements have bound to functions so far. *)
Record module_state : Type := mkModule {
  objects : store;
  functions : gset string
}.

(** Line 215, executed: [def values_by_class] binds the name to the
    function, whatever it was bound to. *)
Definition line_215 (μ : module_state) : module_state :=
  mkModule
    (mkStore (heap (objects μ))
             (delete "values_by_class"%string (globals (objects μ))))
    ({["values_by_class"%string]} ∪ functions μ).

(** A call [values_by_class(column)] at the top level of the script.  The
    name of the function is looked up first: unbound it is a [NameError],
    bound to a frame it is not callable.  Then the body runs, and looks the
    global [df_classed] up. *)
Definition call_values_by_class (μ : module_state) (column : string) : result (list ndarray) :=
  if bool_decide ("values_by_class"%string ∈ functions μ) then
    '(_, d) ← read_global (objects μ) "df_classed";
    values_by_class d column
  else
    match globals (objects μ) !! "values_by_class"%string with
    | Some _ => Raise TypeError
    | None => Raise (NameError "values_by_class")
    end.

(** [df[column].values], the data of the overall box plots, lines 244 and
    252. *)
Definition overall_values (σ : store) (column : string) : result ndarray :=
  '(_, d) ← read_global σ "df";
  s ← getitem d column;
  Ok (values s).

(** ** The axis of the histogram, lines 174-180 *)

(** The sections before the box plots raise one more exception,
    [ValueError]. *)
Inductive py_exn : Type :=
  | Builtin (e : exn)
  | ValueError.

Inductive outcome (A : Type) : Type :=
  | Returns (a : A)
  | Raises (e : py_exn).
Arguments Returns {A} a.
Arguments Raises {A} e.

#[export] Instance outcome_ret : MRet outcome := λ A a, Returns a.
#[export] Instance outcome_bind : MBind outcome := λ A B f r,
  match r with
  | Returns a => f a
  | Raises e => Raises e
  end.

(** What [min()] and [max()] return on an int64 column: an integer, or NaN
    when the column has no entry. *)
Inductive reduction : Type :=
  | RNaN
  | RInt (z : Z).

Definition series_min (qs : list Z) : reduction :=
  match qs with
  | [] => RNaN
  | q :: qs' => RInt (foldr Z.min q qs')
  end.

Definition series_max (qs : list Z) : reduction :=
  match qs with
  | [] => RNaN
  | q :: qs' => RInt (foldr Z.max q qs')
  end.

(** [int(x)]: NaN cannot be converted. *)
Definition py_int (x : reduction) : outcome Z :=
  match x with
  | RInt z => Returns z
  | RNaN => Raises ValueError
  end.

(** [np.arange(start, stop, step)] on floats: [ceil((stop - start) / step)]
    values [start + i * step].  The floats are given by the rationals they
    denote; for the half-integers the script passes this is exact as long
    as the scores are below 2^51 in absolute value. *)
Definition np_arange (start stop step : Q) : list Q :=
  (λ i : nat, start + inject_Z (Z.of_nat i) * step)%Q <$>
    seq 0 (Z.to_nat (Qceiling ((stop - start) / step))).

(** [range(a, b)] *)
Definition py_range (a b : Z) : list Z := seqZ a (b - a).

(** Scores in the range where the bin edges are exact floats. *)
Definition exact_scores (qs : list Z) : Prop :=
  Forall (λ q, - 2 ^ 51 < q < 2 ^ 51) qs.

(** Lines 174, 175 and 180, for the int64 column [qs] that [df['quality']]
    holds: the bin edges passed to [hist] and the ticks passed to
    [xticks]. *)
Definition histogram_axis (qs : list Z) : outcome (list Q * list Z) :=
  min_q ← py_int (series_min qs);
  max_q ← py_int (series_max qs);
  let bins := np_arange (inject_Z min_q - 0.5) (inject_Z max_q + 1.5) 1.0 in
  Returns (bins, py_range min_q (max_q + 1)).

(** ** The strongest correlations, lines 104-110 *)

Definition finishes {A} (r : outcome A) : Prop := ∃ a, r = Returns a.

(** A series of floats with string labels, such as one column of the
    correlation matrix: the entries in order, each with its label. *)
Abbreviation lseries := (list (string * float64)).

(** The frame [corr]: the labels of its rows and its columns by name. *)
Record Matrix : Type := mkMatrix {
  row_labels : list string;
  columns : gmap string (list float64)
}.

(** [corr_df[c]] *)
Definition matrix_getitem (m : Matrix) (c : string) : outcome lseries :=
  match columns m !! c with
  | Some xs => Returns (zip (row_labels m) xs)
  | None => Raises (Builtin (KeyError c))
  end.

(** [s.drop(labels=[l])]: without the entries labelled [l]; a label that
    does not occur is a [KeyError]. *)
Definition series_drop (s : lseries) (l : string) : outcome lseries :=
  if bool_decide (l ∈ s.*1)
  then Returns (filter (λ e, e.1 ≠ l) s)
  else Raises (Builtin (KeyError l)).

Definition float_abs (x : float64) : float64 :=
  match x with
  | NaN => NaN
  | Inf _ => Inf false
  | Fin q => Fin (Qabs q)
  end.

(** [s.abs()] *)
Definition series_abs (s : lseries) : lseries := prod_map id float_abs <$> s.

(** [x <= y] on floats; false when either is NaN. *)
Definition float_le (x y : float64) : Prop :=
  match x, y with
  | NaN, _ | _, NaN => False
  | Inf true, _ => True
  | _, Inf false => True
  | Fin p, Fin q => (p <= q)%Q
  | _, _ => False
  end.

(** The order of [sort_values(ascending=False)]: greater values first,
    NaN after all numbers. *)
Definition sorts_before (x y : float64) : Prop :=
  y = NaN ∨ float_le y x.

(** [s.sort_values(ascending=False)].  pandas leaves the order of equal
    values to the sorting algorithm, which is not stable by default; what
    every algorithm guarantees is that the result holds the same entries,
    in the order above. *)
Class SortValues : Type := {
  sort_values_desc : lseries → lseries;
  sort_values_perm s : sort_values_desc s ≡ₚ s;
  sort_values_sorted s :
    StronglySorted (λ e1 e2, sorts_before e1.2 e2.2) (sort_values_desc s)
}.

(** The value [s] has under label [l]; NaN if the label is missing. *)
Fixpoint series_get (s : lseries) (l : string) : float64 :=
  match s with
  | [] => NaN
  | (l', v) :: s' => if decide (l' = l) then v else series_get s' l
  end.

(** [s.reindex(new_index)]: the entries of [s] in the order of the given
    labels.  A series with repeated labels cannot be reindexed, unless the
    new index is the one it has. *)
Definition reindex (s : lseries) (new_index : list string) : outcome lseries :=
  if bool_decide (new_index = s.*1) then Returns s
  else if bool_decide (NoDup s.*1)
  then Returns ((λ l, (l, series_get s l)) <$> new_index)
  else Raises ValueError.

(** [l[:k]]: the first [k] entries, or all but the last [-k] when [k] is
    negative. *)
Definition slice_to {A} (k : Z) (l : list A) : list A :=
  if decide (0 ≤ k) then take (Z.to_nat k) l
  else take (length l - Z.to_nat (- k)) l.

(** [top_correlations_with], lines 104-106. *)
Definition top_correlations_with `{SortValues}
    (target_col : string) (corr_df : Matrix) (k : Z) : outcome lseries :=
  s ← (col ← matrix_getitem corr_df target_col; series_drop col target_col);
  r ← reindex s (sort_values_desc (series_abs s)).*1;
  Returns (slice_to k r).

(** Lines 108-110: the call is made only if [corr] has a quality column;
    the result is what gets printed. *)
Definition top_quality_correlations `{SortValues} (corr : Matrix) : outcome (option lseries) :=
  if bool_decide (is_Some (columns corr !! "quality"%string))
  then r ← top_correlations_with "quality" corr 8; Returns (Some r)
  else Returns None.

(** What [df.corr()] returns: a square frame, rows and columns labelled by
    the same distinct names. *)
Definition corr_matrix (m : Matrix) : Prop :=
  NoDup (row_labels m) ∧
  (∀ c, c ∈ row_labels m ↔ is_Some (columns m !! c)) ∧
  map_Forall (λ _ xs, length xs = length (row_labels m)) (columns m).

(** A sorting algorithm for [SortValues]: merge sort. *)
#[export] Instance Qle_dec (p q : Q) : Decision (p <= q)%Q.
Proof.
  refine (cast_if (decide (Qle_bool p q = true))); by rewrite <-Qle_bool_iff.
Defined.

#[export] Instance float_le_dec (x y : float64) : Decision (float_le x y).
Proof. destruct x as [|[|]|p], y as [|[|]|q]; simpl; apply _. Defined.

#[export] Instance float64_eq_NaN_dec (y : float64) : Decision (y = NaN).
Proof. destruct y; [left|right..]; done. Defined.

#[export] Instance sorts_before_dec (x y : float64) : Decision (sorts_before x y).
Proof. unfold sorts_before. apply _. Defined.

Definition entry_before (e1 e2 : string * float64) : Prop :=
  sorts_before e1.2 e2.2.

#[export] Instance entry_before_dec e1 e2 : Decision (entry_before e1 e2).
Proof. unfold entry_before. apply _. Defined.

#[export] Instance float_le_trans : Transitive float_le.
Proof.
  intros [|[|]|p] [|[|]|q] [|[|]|r]; simpl; try done. apply Qle_trans.
Qed.

#[export] Instance entry_before_trans : Transitive entry_before.
Proof.
  intros e1 e2 e3. unfold entry_before, sorts_before.
  intros [H12|H12] [H23|H23]; try (by left).
  - rewrite H12 in H23. by destruct (e3.2) as [|[|]|].
  - right. by transitivity (e2.2).
Qed.

#[export] Instance entry_before_total : Total entry_before.
Proof.
  intros e1 e2. unfold entry_before, sorts_before.
  destruct (e1.2) as [|[|]|p], (e2.2) as [|[|]|q]; simpl; try tauto.
  destruct (Qlt_le_dec p q) as [Hlt|Hle]; [right|left]; right; [|done].
  by apply Qlt_le_weak.
Qed.

(** Merge sort is one way to sort the values. *)
Definition merge_sort_values : SortValues := {|
  sort_values_desc := merge_sort entry_before;
  sort_values_perm := merge_sort_Permutation entry_before;
  sort_values_sorted := StronglySorted_merge_sort entry_before
|}.

(** A correlation matrix of three columns. *)
Definition sample_corr : Matrix :=
  mkMatrix ["alcohol"; "pH"; "quality"]%string
    (<["alcohol"%string := [Fin 1; Fin 0.2; Fin 0.48]]>
       (<["pH"%string := [Fin 0.2; Fin 1; Fin (-0.06)]]>
          (<["quality"%string := [Fin 0.48; Fin (-0.06); Fin 1]]> ∅))).

(** ** Frames as the loader hands them over *)

(** Every column has one entry per row label. *)
Definition wf_frame (d : DataFrame) : Prop :=
  map_Forall (λ _ a, arr_length a = length (index d)) (data d).

(** [read_csv] labels the rows 0, 1, 2, ... *)
Definition range_index (d : DataFrame) : Prop :=
  index d = seq 0 (length (index d)).

Definition loaded (d : DataFrame) : Prop := wf_frame d ∧ range_index d.

(** The entry of column [c] in the row at position [i]. *)
Definition cell (d : DataFrame) (c : string) (i : nat) : option scalar :=
  a ← data d !! c; arr_lookup a i.

(** The mask [cls == label] on a list of class values. *)
Definition is_class (label : string) (o : option string) : bool :=
  bool_decide (o = Some label).

Definition notna (o : option string) : bool :=
  match o with None => false | Some _ => true end.

(** The entries of an array, as scalars. *)
Definition arr_items (a : ndarray) : list scalar :=
  match a with
  | IntArray xs => SInt <$> xs
  | FloatArray xs => SFloat <$> xs
  | ObjArray xs => SObj <$> xs
  end.

(** ** The script in closed form: auxiliary definitions *)

(** The class values [apply] computes from a quality column, when it does
    not raise. *)
Definition class_column (qa : ndarray) : option (list (option string)) :=
  match qa with
  | IntArray qs => Some (map_quality_to_class <$> qs)
  | FloatArray qs => Some (map_quality_to_class <$> qs)
  | ObjArray [] => Some []
  | ObjArray (_ :: _) => None
  end.

(** The rows of class [label]: their labels and their entries in [col]. *)
Definition select_class (cls : list (option string)) (idx : list nat)
    (col : ndarray) (label : string) : Series :=
  mkSeries (mask_filter (is_class label <$> cls) idx)
           (arr_select (is_class label <$> cls) col).

(** The array [apply] returns for a quality column: the class values as an
    object array, or the column itself when it is empty. *)
Definition class_array (qa : ndarray) : ndarray :=
  match qa with
  | IntArray ((_ :: _) as qs) => ObjArray (map_quality_to_class <$> qs)
  | FloatArray ((_ :: _) as qs) => ObjArray (map_quality_to_class <$> qs)
  | _ => qa
  end.

(** The frame [df] after line 209, with [c] as its class column. *)
Definition with_classes (df : DataFrame) (c : ndarray) : DataFrame :=
  mkFrame (index df) (<["quality_class"%string := c]> (data df)).

(** ** Sample frames *)

(** The four-row scenario of the specification, qualities 3, 4, 5 and 8,
    with an alcohol and a pH column. *)
Definition scenario : DataFrame :=
  mkFrame [0; 1; 2; 3]%nat
    (<["quality"%string := IntArray [3; 4; 5; 8]]>
       (<["alcohol"%string := FloatArray [Fin 9.4; Fin 9.8; Fin 9.8; Fin 12.5]]>
          (<["pH"%string := FloatArray [Fin 3.51; Fin 3.2; Fin 3.26; NaN]]> ∅))).

Definition scenario_series : list Series :=
  [mkSeries [0%nat] (FloatArray [Fin 9.4]);
   mkSeries [2%nat] (FloatArray [Fin 9.8]);
   mkSeries [3%nat] (FloatArray [Fin 12.5])].

(** The scenario after line 209 and after line 212. *)
Definition scenario_classes : DataFrame :=
  setitem scenario "quality_class"
    (mkSeries [0; 1; 2; 3]%nat
       (ObjArray [Some "Bad"; None; Some "Good"; Some "Very Good"]%string)).

Definition scenario_classed : DataFrame :=
  mkFrame [0; 2; 3]%nat
    (<["quality_class"%string := ObjArray [Some "Bad"; Some "Good"; Some "Very Good"]%string]>
       (<["quality"%string := IntArray [3; 5; 8]]>
          (<["alcohol"%string := FloatArray [Fin 9.4; Fin 9.8; Fin 12.5]]>
             (<["pH"%string := FloatArray [Fin 3.51; Fin 3.26; NaN]]> ∅)))).

(** A frame whose rows of each class are several and are not next to one
    another, and the three series that [loc] selects from it. *)
Definition mixed_rows : DataFrame :=
  mkFrame [0; 1; 2; 3; 4; 5; 6; 7; 8]%nat
    (<["quality"%string := IntArray [5; 3; 8; 4; 6; 2; 9; 7; 1]]>
       (<["alcohol"%string :=
            FloatArray [Fin 9.4; Fin 9.8; Fin 12.5; Fin 10.1; Fin 9.4;
                        Fin 11.2; Fin 13.0; Fin 9.0; Fin 10.5]]> ∅)).

Definition mixed_rows_series : list Series :=
  [mkSeries [1; 5; 8]%nat (FloatArray [Fin 9.8; Fin 11.2; Fin 10.5]);
   mkSeries [0; 4; 7]%nat (FloatArray [Fin 9.4; Fin 9.4; Fin 9.0]);
   mkSeries [2; 6]%nat (FloatArray [Fin 12.5; Fin 13.0])].

(** Another frame: other columns, other order, a row of quality 5 first. *)
Definition other_frame : DataFrame :=
  mkFrame [0; 1]%nat
    (<["quality"%string := IntArray [5; -2]]>
       (<["sulphates"%string := FloatArray [Fin 0.56; Fin 0.68]]> ∅)).

Definition other_frame_classes : DataFrame :=
  setitem other_frame "quality_class"
    (mkSeries [0; 1]%nat (ObjArray [Some "Good"; Some "Bad"]%string)).

(** The store of the scenario after line 209 and after line 212. *)
Definition scenario_store_209 : store :=
  mkStore {[0%nat := scenario_classes]} {["df"%string := 0%nat]}.

Definition scenario_store_212 : store :=
  mkStore
    (<[2%nat := scenario_classed]>
       (<[1%nat := scenario_classed]> {[0%nat := scenario_classes]}))
    (<["df_classed"%string := 2%nat]> {["df"%string := 0%nat]}).

(** A frame with the header only, as [read_csv] returns it: no rows, every
    column of type object. *)
Definition header_only : DataFrame :=
  mkFrame []
    (<["quality"%string := ObjArray []]>
       (<["alcohol"%string := ObjArray []]> ∅)).

(** A frame without Bad rows. *)
Definition no_bad_rows : DataFrame :=
  mkFrame [0; 1; 2]%nat
    (<["quality"%string := IntArray [6; 4; 9]]>
       (<["alcohol"%string := FloatArray [Fin 10.5; Fin 9.0; Fin 13.1]]> ∅)).

(** * Properties *)

(** ** The class rule *)

Lemma class_value_inj c1 c2 : class_value c1 = class_value c2 → c1 = c2.
Proof. by destruct c1, c2. Qed.

(** The rule on integers, one lemma per branch. *)
Lemma classify_lt4 (q : Z) : q < 4 → map_quality_to_class q = Some "Bad"%string.
Proof.
  intros Hq. unfold map_quality_to_class; simpl.
  by destruct (Z.ltb_spec q 4); [|lia].
Qed.

Lemma classify_5_to_7 (q : Z) :
  4 < q ≤ 7 → map_quality_to_class q = Some "Good"%string.
Proof.
  intros Hq. unfold map_quality_to_class; simpl.
  destruct (Z.ltb_spec q 4); [lia|].
  rewrite Z.gtb_ltb.
  destruct (Z.ltb_spec 4 q); [|lia].
  by destruct (Z.leb_spec q 7); [|lia].
Qed.

Lemma classify_gt7 (q : Z) : 7 < q → map_quality_to_class q = Some "Very Good"%string.
Proof.
  intros Hq. unfold map_quality_to_class; simpl.
  destruct (Z.ltb_spec q 4); [lia|].
  rewrite !Z.gtb_ltb.
  destruct (Z.ltb_spec 4 q); [|lia].
  destruct (Z.leb_spec q 7); [lia|]. simpl.
  by destruct (Z.ltb_spec 7 q); [|lia].
Qed.

Lemma classify_4 : map_quality_to_class 4 = None.
Proof. reflexivity. Qed.

(** The shape of the rule: which integers reach which outcome. *)
Lemma classify_cases (q : Z) :
  (q < 4 ∧ map_quality_to_class q = class_value Bad) ∨
  (4 < q ≤ 7 ∧ map_quality_to_class q = class_value Good) ∨
  (7 < q ∧ map_quality_to_class q = class_value VeryGood) ∨
  (q = 4 ∧ map_quality_to_class q = class_value Unclassified).
Proof.
  destruct (Z.lt_trichotomy q 4) as [H4|[->|H4]].
  - left. split; [done|]. by apply classify_lt4.
  - do 3 right. split; [done|]. apply classify_4.
  - destruct (Z.le_gt_cases q 7) as [H7|H7].
    + right; left. split; [lia|]. apply classify_5_to_7; lia.
    + right; right; left. split; [lia|]. by apply classify_gt7.
Qed.

Lemma classify_Bad_iff (q : Z) :
  map_quality_to_class q = class_value Bad ↔ q < 4.
Proof.
  split; [intros E | apply classify_lt4].
  destruct (classify_cases q) as [[Hq _]|[[_ E']|[[_ E']|[_ E']]]]; [done|..];
    rewrite E in E'; discriminate E'.
Qed.

Lemma classify_Good_iff (q : Z) :
  map_quality_to_class q = class_value Good ↔ 4 < q ≤ 7.
Proof.
  split; [intros E | apply classify_5_to_7].
  destruct (classify_cases q) as [[_ E']|[[Hq _]|[[_ E']|[_ E']]]]; [|done|..];
    rewrite E in E'; discriminate E'.
Qed.

Lemma classify_VeryGood_iff (q : Z) :
  map_quality_to_class q = class_value VeryGood ↔ 7 < q.
Proof.
  split; [intros E | apply classify_gt7].
  destruct (classify_cases q) as [[_ E']|[[_ E']|[[Hq _]|[_ E']]]]; [| |done|];
    rewrite E in E'; discriminate E'.
Qed.

Lemma classify_None_iff (q : Z) :
  map_quality_to_class q = class_value Unclassified ↔ q = 4.
Proof.
  split; [intros E | by intros ->].
  destruct (classify_cases q) as [[_ E']|[[_ E']|[[_ E']|[Hq _]]]]; [| | |done];
    rewrite E in E'; discriminate E'.
Qed.

(** C1.  For every integer [q] the rule returns exactly one of the four
    outcomes Bad, Good, Very Good and unclassified ([None]); it returns Bad
    exactly when [q < 4], Good exactly when [4 < q <= 7] (so for 5, 6 and 7),
    Very Good exactly when [q > 7], and unclassified exactly when [q = 4]. *)
Theorem classify_spec (q : Z) :
  (∃ c, map_quality_to_class q = class_value c ∧
        ∀ c', map_quality_to_class q = class_value c' → c' = c) ∧
  (map_quality_to_class q = class_value Bad ↔ q < 4) ∧
  (map_quality_to_class q = class_value Good ↔ 4 < q ≤ 7) ∧
  (map_quality_to_class q = class_value VeryGood ↔ 7 < q) ∧
  (map_quality_to_class q = class_value Unclassified ↔ q = 4) ∧
  map_quality_to_class <$> [5; 6; 7] =
    [class_value Good; class_value Good; class_value Good].
Proof.
  split.
  { destruct (classify_cases q) as [[_ H]|[[_ H]|[[_ H]|[_ H]]]];
      eexists; (split; [exact H|]); intros c' Hc'; rewrite H in Hc';
      by apply class_value_inj. }
  split; [apply classify_Bad_iff|].
  split; [apply classify_Good_iff|].
  split; [apply classify_VeryGood_iff|].
  split; [apply classify_None_iff|].
  reflexivity.
Qed.

(** ** Boolean indexing *)

Section mask_filter.
Context {A B : Type}.
Implicit Types (mask : list bool) (l : list A).

Lemma mask_filter_nil_r mask : mask_filter mask (@nil A) = [].
Proof. by destruct mask. Qed.

(** The length depends on the mask alone, once the list is long enough. *)
Lemma mask_filter_length mask l :
  (length mask ≤ length l)%nat →
  length (mask_filter mask l) = length (filter (λ b, b = true) mask).
Proof.
  revert l. induction mask as [|b mask IH]; intros [|x l] Hlen; simpl in Hlen;
    try done; try lia.
  rewrite filter_cons. cbn [mask_filter]. destruct b.
  - rewrite decide_True by done. simpl. rewrite IH; [done|lia].
  - rewrite decide_False by done. rewrite IH; [done|lia].
Qed.

(** Two selections in a row: the second mask is computed on the selected
    part of [cs], and whatever it keeps the first mask had kept. *)
Lemma mask_filter_twice (p q : B → bool) (cs : list B) l :
  (∀ c, q c = true → p c = true) →
  mask_filter (q <$> mask_filter (p <$> cs) cs) (mask_filter (p <$> cs) l)
  = mask_filter (q <$> cs) l.
Proof.
  intros Hqp. revert l. induction cs as [|c cs IH]; intros l; [done|].
  rewrite !fmap_cons.
  destruct l as [|x l]; cbn [mask_filter].
  { destruct (p c); cbn [mask_filter]; by rewrite ?mask_filter_nil_r. }
  destruct (p c) eqn:Ep.
  - rewrite fmap_cons. cbn [mask_filter]. destruct (q c); by rewrite IH.
  - destruct (q c) eqn:Eq; [|by rewrite IH].
    apply Hqp in Eq. congruence.
Qed.
End mask_filter.

(** Selection from the row labels 0, 1, 2, ...: the label at position [k]
    of the selection is the position in the original list of the entry at
    position [k] of the selection. *)
Lemma mask_filter_seq_lookup {A} (mask : list bool) (l : list A) (j k i : nat) :
  mask_filter mask (seq j (length l)) !! k = Some i →
  (j ≤ i)%nat ∧ mask_filter mask l !! k = l !! (i - j)%nat.
Proof.
  revert l j k. induction mask as [|b mask IH]; intros [|x l] j k; try done.
  cbn [length seq mask_filter]. destruct b.
  - destruct k as [|k]; simpl.
    + intros [= <-]. by rewrite Nat.sub_diag.
    + intros [Hj ->]%IH. split; [lia|].
      by replace (i - j)%nat with (S (i - S j)) by lia.
  - intros [Hj ->]%IH. split; [lia|].
    by replace (i - j)%nat with (S (i - S j)) by lia.
Qed.

Lemma mask_filter_seq_bound (mask : list bool) (j n k i : nat) :
  mask_filter mask (seq j n) !! k = Some i → (j + k ≤ i < j + n)%nat.
Proof.
  revert j n k. induction mask as [|b mask IH]; intros j [|n] k; try done.
  cbn [seq mask_filter]. destruct b.
  - destruct k as [|k]; simpl.
    + intros [= <-]. lia.
    + intros ?%IH. lia.
  - intros ?%IH. lia.
Qed.

(** The selected labels are in increasing order. *)
Lemma mask_filter_seq_mono (mask : list bool) (j n k1 k2 i1 i2 : nat) :
  (k1 < k2)%nat →
  mask_filter mask (seq j n) !! k1 = Some i1 →
  mask_filter mask (seq j n) !! k2 = Some i2 →
  (i1 < i2)%nat.
Proof.
  revert j n k1 k2. induction mask as [|b mask IH]; intros j [|n] k1 k2 Hk;
    try done.
  cbn [seq mask_filter]. destruct b; [|by apply IH].
  destruct k2 as [|k2]; [lia|]. destruct k1 as [|k1]; simpl.
  - intros [= <-] ?%mask_filter_seq_bound. lia.
  - apply IH. lia.
Qed.

(** ** Arrays *)

Lemma arr_select_length mask a :
  (length mask ≤ arr_length a)%nat →
  arr_length (arr_select mask a) = length (filter (λ b, b = true) mask).
Proof. destruct a; simpl; apply mask_filter_length. Qed.

Lemma arr_select_twice (p q : option string → bool) cs a :
  (∀ c, q c = true → p c = true) →
  arr_select (q <$> mask_filter (p <$> cs) cs) (arr_select (p <$> cs) a)
  = arr_select (q <$> cs) a.
Proof. intros Hqp. destruct a; simpl; by rewrite mask_filter_twice. Qed.

Lemma arr_select_seq_lookup mask a k i :
  mask_filter mask (seq 0 (arr_length a)) !! k = Some i →
  arr_lookup (arr_select mask a) k = arr_lookup a i.
Proof.
  destruct a; simpl; intros [_ ->]%mask_filter_seq_lookup;
    by rewrite Nat.sub_0_r.
Qed.

Lemma arr_lookup_lt a i : (i < arr_length a)%nat → is_Some (arr_lookup a i).
Proof.
  destruct a; simpl; intros [x ->]%lookup_lt_is_Some_2; by eexists.
Qed.

Lemma notna_isna cls : negb <$> arr_isna (ObjArray cls) = notna <$> cls.
Proof.
  simpl. rewrite <-list_fmap_compose. apply list_fmap_ext.
  by intros _ [s|] _.
Qed.

Lemma is_class_notna label c : is_class label c = true → notna c = true.
Proof. unfold is_class. intros ->%bool_decide_eq_true. done. Qed.

(** ** The script in closed form *)

Lemma class_column_length qa cls :
  class_column qa = Some cls → length cls = arr_length qa.
Proof.
  destruct qa as [qs|qs|[|o os]]; simpl; intros [= <-];
    by rewrite ?length_fmap.
Qed.

Lemma class_array_length qa : arr_length (class_array qa) = arr_length qa.
Proof.
  destruct qa as [[|q qs]|[|q qs]|os]; cbn [class_array arr_length];
    try done; apply length_fmap.
Qed.

(** The masks computed from the stored class column are those of the class
    values. *)
Lemma class_array_notna qa cls :
  class_column qa = Some cls →
  negb <$> arr_isna (class_array qa) = notna <$> cls.
Proof.
  destruct qa as [[|q qs]|[|q qs]|[|o os]]; intros [= <-]; try done;
    apply notna_isna.
Qed.

Lemma class_array_eq_str qa cls mask label :
  class_column qa = Some cls →
  arr_eq_str (arr_select mask (class_array qa)) label =
  is_class label <$> mask_filter mask cls.
Proof.
  destruct qa as [[|q qs]|[|q qs]|[|o os]]; intros [= <-]; try done;
    cbn [class_array arr_select arr_eq_str fmap list_fmap];
    by rewrite ?mask_filter_nil_r.
Qed.

Lemma apply_map_quality_to_class_spec s :
  apply_map_quality_to_class s =
  match class_column (values s) with
  | Some cls => Ok (mkSeries (s_index s) (class_array (values s)))
  | None => Raise TypeError
  end.
Proof. by destruct s as [idx [[|q qs]|[|q qs]|[|o os]]]. Qed.

Lemma add_quality_class_spec df :
  add_quality_class df =
  match data df !! "quality"%string with
  | None => Raise (KeyError "quality")
  | Some qa =>
      match class_column qa with
      | Some cls => Ok (with_classes df (class_array qa))
      | None => Raise TypeError
      end
  end.
Proof.
  unfold add_quality_class, getitem.
  destruct (data df !! "quality"%string) as [qa|]; [|done].
  cbn [mbind result_bind]. rewrite apply_map_quality_to_class_spec.
  cbn [values]. by destruct (class_column qa).
Qed.

Lemma drop_unclassified_spec df qa cls :
  class_column qa = Some cls →
  drop_unclassified (with_classes df (class_array qa)) =
  Ok (mkFrame (mask_filter (notna <$> cls) (index df))
              (arr_select (notna <$> cls) <$>
                 data (with_classes df (class_array qa)))).
Proof.
  intros Hcls. unfold drop_unclassified, dropna, getitem, with_classes.
  cbn [data index]. rewrite lookup_insert_eq.
  cbn [mbind result_bind values]. by rewrite (class_array_notna qa cls).
Qed.

Lemma loc_class_spec df qa cls column label :
  class_column qa = Some cls →
  loc_class (mkFrame (mask_filter (notna <$> cls) (index df))
              (arr_select (notna <$> cls) <$>
                 data (with_classes df (class_array qa))))
            label column =
  match data (with_classes df (class_array qa)) !! column with
  | Some col => Ok (select_class cls (index df) col label)
  | None => Raise (KeyError column)
  end.
Proof.
  intros Hcls. unfold loc_class, loc, getitem, with_classes. cbn [data index].
  rewrite !lookup_fmap, lookup_insert_eq. cbn [fmap option_fmap option_map].
  cbn [mbind result_bind].
  destruct (<["quality_class"%string:=class_array qa]> (data df) !! column)
    as [col|]; [|done].
  cbn [fmap option_fmap option_map mbind result_bind s_index values].
  unfold eq_str, select_class. cbn [values].
  rewrite (class_array_eq_str qa cls) by done.
  f_equal. f_equal.
  - apply (mask_filter_twice notna (is_class label)), is_class_notna.
  - apply (arr_select_twice notna (is_class label)), is_class_notna.
Qed.

Lemma group_series_spec df column :
  group_series df column =
  match data df !! "quality"%string with
  | None => Raise (KeyError "quality")
  | Some qa =>
      match class_column qa with
      | None => Raise TypeError
      | Some cls =>
          match data (with_classes df (class_array qa)) !! column with
          | Some col => Ok (select_class cls (index df) col <$> bucket_labels)
          | None => Raise (KeyError column)
          end
      end
  end.
Proof.
  unfold group_series. rewrite add_quality_class_spec.
  destruct (data df !! "quality"%string) as [qa|]; [|done].
  destruct (class_column qa) as [cls|] eqn:Hcls; [|done].
  cbn [mbind result_bind]. rewrite (drop_unclassified_spec df qa cls Hcls).
  cbn [mbind result_bind]. unfold series_by_class.
  rewrite !(loc_class_spec df qa cls) by done.
  by destruct (data (with_classes df (class_array qa)) !! column).
Qed.

Lemma values_by_class_series df_classed column :
  values_by_class df_classed column =
  match series_by_class df_classed column with
  | Ok ss => Ok (values <$> ss)
  | Raise e => Raise e
  end.
Proof.
  unfold values_by_class, series_by_class.
  destruct (loc_class df_classed "Bad" column); [|done].
  destruct (loc_class df_classed "Good" column); [|done].
  by destruct (loc_class df_classed "Very Good" column).
Qed.

Lemma group_values_series df column :
  group_values df column =
  match group_series df column with
  | Ok ss => Ok (values <$> ss)
  | Raise e => Raise e
  end.
Proof.
  unfold group_values, group_series.
  destruct (add_quality_class df) as [df1|]; [|done]. cbn [mbind result_bind].
  destruct (drop_unclassified df1) as [dc|]; [|done]. cbn [mbind result_bind].
  apply values_by_class_series.
Qed.

Lemma mask_filter_seq_elem (mask : list bool) (j n i : nat) :
  i ∈ mask_filter mask (seq j n) ↔
  (j ≤ i < j + n)%nat ∧ mask !! (i - j)%nat = Some true.
Proof.
  revert j n. induction mask as [|b mask IH]; intros j [|n]; cbn [seq mask_filter].
  - rewrite elem_of_nil, lookup_nil. split; [done | by intros [_ ?]].
  - rewrite elem_of_nil, lookup_nil. split; [done | by intros [_ ?]].
  - rewrite elem_of_nil. split; [done|]. lia.
  - assert (i ∈ mask_filter mask (seq (S j) n) ↔
            (j < i < j + S n)%nat ∧ (b :: mask) !! (i - j)%nat = Some true)
      as Htail.
    { rewrite IH. split; intros [Hi Hm]; (split; [lia|]).
      - by replace (i - j)%nat with (S (i - S j)) by lia.
      - by replace (i - j)%nat with (S (i - S j)) in Hm by lia. }
    destruct b.
    + rewrite elem_of_cons, Htail. split.
      * intros [->|[Hi Hm]]; [|split; [lia|done]].
        split; [lia|]. by rewrite Nat.sub_diag.
      * intros [Hi Hm]. destruct (decide (i = j)) as [->|]; [by left|].
        right. split; [lia|done].
    + rewrite Htail. split; intros [Hi Hm]; (split; [|done]); [lia|].
      destruct (decide (i = j)) as [->|]; [|lia].
      by rewrite Nat.sub_diag in Hm.
Qed.

(** ** Frames *)

Lemma wf_frame_lookup d c a :
  wf_frame d → data d !! c = Some a → arr_length a = length (index d).
Proof. intros Hwf Hc. exact (Hwf c a Hc). Qed.

Lemma wf_with_classes df c :
  wf_frame df → arr_length c = length (index df) → wf_frame (with_classes df c).
Proof.
  intros Hwf Hlen. unfold wf_frame, with_classes; cbn [data index].
  by apply map_Forall_insert_2.
Qed.

Lemma cell_with_classes_ne df a c i :
  c ≠ "quality_class"%string → cell (with_classes df a) c i = cell df c i.
Proof.
  intros Hc. unfold cell, with_classes; cbn [data].
  by rewrite lookup_insert_ne.
Qed.

(** What [loaded] gives about an integer quality column. *)
Lemma loaded_quality df qs :
  loaded df → data df !! "quality"%string = Some (IntArray qs) →
  index df = seq 0 (length qs).
Proof.
  intros [Hwf Hidx] Hq. rewrite Hidx.
  by rewrite <-(wf_frame_lookup _ _ _ Hwf Hq).
Qed.

(** The pipeline on an integer quality column, in closed form. *)
Lemma group_series_int df qs column ss :
  data df !! "quality"%string = Some (IntArray qs) →
  group_series df column = Ok ss →
  ∃ col,
    data (with_classes df (class_array (IntArray qs))) !! column = Some col ∧
    ss = select_class (map_quality_to_class <$> qs) (index df) col <$> bucket_labels.
Proof.
  intros Hq. rewrite group_series_spec, Hq. cbn [class_column].
  destruct (data (with_classes df _) !! column) as [col|]; [|done].
  intros [= <-]. by exists col.
Qed.

Lemma select_class_length cls idx col label :
  length cls = length idx → length cls = arr_length col →
  length (s_index (select_class cls idx col label)) =
  arr_length (values (select_class cls idx col label)).
Proof.
  intros Hidx Hcol. unfold select_class; cbn [s_index values].
  rewrite arr_select_length, mask_filter_length;
    rewrite ?length_fmap; [done|lia..].
Qed.

Lemma classified_not_4 (q : Z) label :
  map_quality_to_class q = Some label → q ≠ 4.
Proof. by intros H ->. Qed.

Lemma arr_lookup_Some_lt a i v : arr_lookup a i = Some v → (i < arr_length a)%nat.
Proof.
  destruct a as [xs|xs|xs]; simpl; destruct (xs !! i) eqn:E; try done;
    intros _; by apply lookup_lt_Some in E.
Qed.

(** The labels that survive a selection by a test on the class value. *)
Lemma class_mask_elem (p : option string → bool) (qs : list Z) (i : nat) :
  i ∈ mask_filter (p <$> (map_quality_to_class <$> qs)) (seq 0 (length qs)) ↔
  ∃ q : Z, qs !! i = Some q ∧ p (map_quality_to_class q) = true.
Proof.
  rewrite mask_filter_seq_elem, Nat.sub_0_r, !list_lookup_fmap. split.
  - intros [_ Hm]. destruct (qs !! i) as [q|]; [|done].
    exists q. split; [done|]. simpl in Hm. by injection Hm.
  - intros (q & Hq & Hc). split.
    + apply lookup_lt_Some in Hq. lia.
    + rewrite Hq. simpl. by f_equal.
Qed.

(** A summary of what the pipeline computes from a loaded frame with an
    integer quality column; the theorems below read their parts off it. *)
Lemma group_series_loaded df column qs ss :
  loaded df →
  data df !! "quality"%string = Some (IntArray qs) →
  group_series df column = Ok ss →
  let cls := map_quality_to_class <$> qs in
  let df1 := with_classes df (class_array (IntArray qs)) in
  let df_classed :=
    mkFrame (mask_filter (notna <$> cls) (index df))
            (arr_select (notna <$> cls) <$> data df1) in
  ∃ col,
    index df = seq 0 (length qs) ∧
    arr_length col = length qs ∧
    data df1 !! column = Some col ∧
    add_quality_class df = Ok df1 ∧
    drop_unclassified df1 = Ok df_classed ∧
    series_by_class df_classed column = Ok ss ∧
    ss = select_class cls (index df) col <$> bucket_labels.
Proof.
  intros Hl Hq Hss cls df1 df_classed.
  pose proof (loaded_quality _ _ Hl Hq) as Hidx.
  destruct (group_series_int _ _ _ _ Hq Hss) as (col & Hcol & ->).
  assert (add_quality_class df = Ok df1) as Hadd
    by (by rewrite add_quality_class_spec, Hq).
  assert (drop_unclassified df1 = Ok df_classed) as Hdrop
    by (by apply drop_unclassified_spec).
  exists col. repeat split; try done.
  - rewrite (wf_frame_lookup df1 column col); [| |done].
    + cbn [df1 with_classes index]. by rewrite Hidx, length_seq.
    + apply wf_with_classes; [apply Hl|].
      by rewrite class_array_length, Hidx, length_seq.
  - unfold group_series in Hss. rewrite Hadd in Hss. cbn [mbind result_bind] in Hss.
    rewrite Hdrop in Hss. exact Hss.
Qed.

(** C2.  For a loaded dataset with integer quality scores and any column,
    every value in every bucket of the group aggregator is the entry, in
    that column, of a row that survived the removal of unclassified rows,
    and that row's quality is not 4: the rows with quality 4 are already
    absent from [df_classed], the frame the buckets are taken from. *)
Theorem buckets_exclude_unclassified df column qs ss :
  loaded df →
  data df !! "quality"%string = Some (IntArray qs) →
  group_series df column = Ok ss →
  ∃ df1 df_classed,
    add_quality_class df = Ok df1 ∧
    drop_unclassified df1 = Ok df_classed ∧
    values_by_class df_classed column = Ok (values <$> ss) ∧
    (∀ i, i ∈ index df_classed → ∃ q : Z, qs !! i = Some q ∧ q ≠ 4) ∧
    (∀ s k v, s ∈ ss → arr_lookup (values s) k = Some v →
       ∃ (i : nat) (q : Z),
         s_index s !! k = Some i ∧ i ∈ index df_classed ∧
         qs !! i = Some q ∧ q ≠ 4 ∧ cell df1 column i = Some v).
Proof.
  intros Hl Hq Hss.
  destruct (group_series_loaded _ _ _ _ Hl Hq Hss)
    as (col & Hidx & Hlen & Hcol & Hadd & Hdrop & Hser & Hsel).
  eexists _, _. split; [exact Hadd|]. split; [exact Hdrop|].
  split; [by rewrite values_by_class_series, Hser|].
  cbn [index]. rewrite Hidx. split.
  - intros i (q & Hi & Hc)%class_mask_elem. exists q. split; [done|].
    destruct (map_quality_to_class q) as [label|] eqn:E; [|done].
    by eapply classified_not_4.
  - intros s k v Hs Hv. rewrite Hsel in Hs.
    apply list_elem_of_fmap in Hs as (label & -> & _).
    pose proof (arr_lookup_Some_lt _ _ _ Hv) as Hk.
    rewrite <-select_class_length in Hk;
      [|by rewrite Hidx, !length_fmap, length_seq | by rewrite !length_fmap].
    apply lookup_lt_is_Some_2 in Hk as [i Hi].
    assert (i ∈ s_index (select_class (map_quality_to_class <$> qs)
                           (index df) col label)) as Hin
      by (by eapply list_elem_of_lookup_2).
    cbn [select_class s_index] in Hin, Hi. rewrite Hidx in Hin, Hi.
    apply class_mask_elem in Hin as (q & Hqi & Hc).
    apply bool_decide_eq_true in Hc.
    exists i, q. split; [by rewrite Hidx|]. split.
    { apply class_mask_elem. exists q. by rewrite Hc. }
    split; [done|]. split; [by eapply classified_not_4|].
    unfold cell. rewrite Hcol. cbn [mbind option_bind].
    rewrite <-Hv. cbn [select_class values]. symmetry.
    apply arr_select_seq_lookup. by rewrite Hlen.
Qed.

(** C4.  For a loaded dataset with integer quality scores and any column,
    each bucket lists its values in the order of the rows they come from:
    the entry at position [k] of a bucket is the column's entry in the row
    whose label is at position [k] of the bucket's index, and these labels,
    which are row positions in the input, increase along the bucket. *)
Theorem buckets_preserve_order df column qs ss :
  loaded df →
  data df !! "quality"%string = Some (IntArray qs) →
  group_series df column = Ok ss →
  ∃ df1,
    add_quality_class df = Ok df1 ∧
    group_values df column = Ok (values <$> ss) ∧
    ∀ s, s ∈ ss →
      length (s_index s) = arr_length (values s) ∧
      (∀ k i, s_index s !! k = Some i →
         is_Some (cell df1 column i) ∧
         arr_lookup (values s) k = cell df1 column i) ∧
      (∀ k1 k2 i1 i2, (k1 < k2)%nat →
         s_index s !! k1 = Some i1 → s_index s !! k2 = Some i2 →
         (i1 < i2)%nat).
Proof.
  intros Hl Hq Hss.
  destruct (group_series_loaded _ _ _ _ Hl Hq Hss)
    as (col & Hidx & Hlen & Hcol & Hadd & Hdrop & Hser & Hsel).
  eexists. split; [exact Hadd|].
  split; [by rewrite group_values_series, Hss|].
  intros s Hs. rewrite Hsel in Hs.
  apply list_elem_of_fmap in Hs as (label & -> & _).
  split; [|split].
  - apply select_class_length;
      by rewrite ?Hidx, !length_fmap, ?length_seq.
  - intros k i Hi. cbn [select_class s_index values] in *.
    rewrite Hidx in Hi. unfold cell. rewrite Hcol. cbn [mbind option_bind].
    split.
    + apply arr_lookup_lt. apply mask_filter_seq_bound in Hi. lia.
    + apply arr_select_seq_lookup. by rewrite Hlen.
  - intros k1 k2 i1 i2 Hk. cbn [select_class s_index]. rewrite Hidx.
    by apply mask_filter_seq_mono.
Qed.

(** The three classes split the scores other than 4. *)
Lemma class_counts (qs : list Z) :
  let count label :=
    length (filter (λ b, b = true)
              (is_class label <$> (map_quality_to_class <$> qs))) in
  (count "Bad"%string + count "Good"%string + count "Very Good"%string)%nat
  = length (filter (λ q, q ≠ 4) qs).
Proof.
  induction qs as [|q qs IH]; [done|]. cbn zeta in *.
  rewrite !fmap_cons, !filter_cons.
  destruct (classify_cases q) as [[Hq E]|[[Hq E]|[[Hq E]|[Hq E]]]];
    rewrite E; cbn [class_value is_class];
    repeat (first [rewrite bool_decide_eq_true_2 by done
                  |rewrite bool_decide_eq_false_2 by done]);
    repeat (first [rewrite decide_True by (first [done|lia])
                  |rewrite decide_False by (first [done|lia])]);
    cbn [length]; lia.
Qed.

(** C3.  For a loaded dataset with integer quality scores and any column,
    the lengths of the buckets add up to the number of rows whose quality
    is not 4. *)
Theorem bucket_lengths_sum df column qs bs :
  loaded df →
  data df !! "quality"%string = Some (IntArray qs) →
  group_values df column = Ok bs →
  sum_list (arr_length <$> bs) = length (filter (λ q, q ≠ 4) qs).
Proof.
  intros Hl Hq Hbs. rewrite group_values_series in Hbs.
  destruct (group_series df column) as [ss|] eqn:Hss; [|done].
  injection Hbs as <-.
  destruct (group_series_loaded _ _ _ _ Hl Hq Hss)
    as (col & Hidx & Hlen & Hcol & Hadd & Hdrop & Hser & ->).
  rewrite <-class_counts. cbn [bucket_labels fmap list_fmap sum_list sum_list_with].
  cbn [select_class values].
  rewrite !arr_select_length by (by rewrite !length_fmap, Hlen).
  unfold id. lia.
Qed.

Lemma values_by_class_spec df_classed column :
  values_by_class df_classed column =
  match data df_classed !! "quality_class"%string with
  | None => Raise (KeyError "quality_class")
  | Some cls =>
      match data df_classed !! column with
      | None => Raise (KeyError column)
      | Some col =>
          Ok [arr_select (arr_eq_str cls "Bad") col;
              arr_select (arr_eq_str cls "Good") col;
              arr_select (arr_eq_str cls "Very Good") col]
      end
  end.
Proof.
  unfold values_by_class, loc_class, loc, getitem, eq_str.
  destruct (data df_classed !! "quality_class"%string) as [cls|]; [|done].
  cbn [mbind result_bind].
  by destruct (data df_classed !! column) as [col|].
Qed.

(** C10.  Whenever [values_by_class] returns, it returns three buckets:
    the column restricted to the rows whose class equals "Bad", then
    "Good", then "Very Good".  The labels are literals of the function; its
    only parameters are the frame it reads and the column.  A row whose
    class is [None] is selected by none of the three masks. *)
Theorem three_buckets_in_fixed_order df_classed column bs :
  values_by_class df_classed column = Ok bs →
  length bs = 3%nat ∧
  ∃ cls col,
    data df_classed !! "quality_class"%string = Some cls ∧
    data df_classed !! column = Some col ∧
    bs = [arr_select (arr_eq_str cls "Bad") col;
          arr_select (arr_eq_str cls "Good") col;
          arr_select (arr_eq_str cls "Very Good") col] ∧
    ∀ xs i label,
      cls = ObjArray xs → xs !! i = Some None →
      arr_eq_str cls label !! i = Some false.
Proof.
  rewrite values_by_class_spec.
  destruct (data df_classed !! "quality_class"%string) as [cls|]; [|done].
  destruct (data df_classed !! column) as [col|]; [|done].
  intros [= <-]. split; [done|]. exists cls, col. repeat split.
  intros xs i label -> Hi. cbn [arr_eq_str].
  by rewrite list_lookup_fmap, Hi.
Qed.

Lemma mask_filter_all_false {A} (mask : list bool) (l : list A) :
  Forall (λ b, b = false) mask → mask_filter mask l = [].
Proof.
  intros Hm. revert l.
  induction Hm as [|b mask -> _ IH]; intros [|x l]; simpl; auto.
Qed.

Lemma arr_select_all_false mask a :
  Forall (λ b, b = false) mask → arr_length (arr_select mask a) = 0%nat.
Proof. intros Hm. destruct a; simpl; by rewrite mask_filter_all_false. Qed.

Lemma is_class_all_false (qs : list Z) label :
  (∀ q, q ∈ qs → map_quality_to_class q ≠ Some label) →
  Forall (λ b, b = false) (is_class label <$> (map_quality_to_class <$> qs)).
Proof.
  intros Hqs. rewrite <-list_fmap_compose. apply Forall_fmap, Forall_forall.
  intros q Hq. simpl. by apply bool_decide_eq_false_2, Hqs.
Qed.

Lemma class_column_empty qa :
  arr_length qa = 0%nat → class_column qa = Some [].
Proof. by destruct qa as [[|??]|[|??]|[|??]]. Qed.

Lemma group_values_spec df column :
  group_values df column =
  match data df !! "quality"%string with
  | None => Raise (KeyError "quality")
  | Some qa =>
      match class_column qa with
      | None => Raise TypeError
      | Some cls =>
          match data (with_classes df (class_array qa)) !! column with
          | Some col =>
              Ok (values <$> (select_class cls (index df) col <$> bucket_labels))
          | None => Raise (KeyError column)
          end
      end
  end.
Proof.
  rewrite group_values_series, group_series_spec.
  destruct (data df !! "quality"%string) as [qa|]; [|done].
  destruct (class_column qa) as [cls|]; [|done].
  by destruct (data (with_classes df (class_array qa)) !! column).
Qed.

Lemma with_classes_lookup df c column :
  is_Some (data df !! column) → is_Some (data (with_classes df c) !! column).
Proof.
  intros Hc. unfold with_classes; cbn [data].
  rewrite lookup_insert. by case_decide.
Qed.

(** C8.  A class without rows gives an empty bucket, not an exception.
    On a frame without rows, whatever the type of its (empty) quality
    column, the aggregator returns three empty buckets.  On a frame with
    integer quality scores it returns three buckets, and the bucket of a
    class that no score falls in is empty. *)
Theorem empty_class_gives_empty_bucket df column :
  wf_frame df →
  is_Some (data df !! column) →
  (index df = [] → is_Some (data df !! "quality"%string) →
     ∃ b1 b2 b3,
       group_values df column = Ok [b1; b2; b3] ∧
       arr_length b1 = 0%nat ∧ arr_length b2 = 0%nat ∧ arr_length b3 = 0%nat) ∧
  (∀ qs, data df !! "quality"%string = Some (IntArray qs) →
     ∃ b1 b2 b3,
       group_values df column = Ok [b1; b2; b3] ∧
       ((∀ q, q ∈ qs → ¬ q < 4) → arr_length b1 = 0%nat) ∧
       ((∀ q, q ∈ qs → ¬ 4 < q ≤ 7) → arr_length b2 = 0%nat) ∧
       ((∀ q, q ∈ qs → ¬ 7 < q) → arr_length b3 = 0%nat)).
Proof.
  intros Hwf Hcol. split.
  - intros Hidx [qa Hq]. rewrite group_values_spec, Hq.
    rewrite class_column_empty
      by (by rewrite (wf_frame_lookup _ _ _ Hwf Hq), Hidx).
    destruct (with_classes_lookup df (class_array qa) column Hcol) as [col ->].
    eexists _, _, _. split; [reflexivity|].
    cbn [select_class values fmap list_fmap].
    by destruct col.
  - intros qs Hq. rewrite group_values_spec, Hq. cbn [class_column].
    destruct (with_classes_lookup df (class_array (IntArray qs)) column Hcol)
      as [col ->].
    eexists _, _, _. split; [reflexivity|].
    cbn [select_class values].
    repeat split; intros Hqs; apply arr_select_all_false, is_class_all_false;
      intros q Hin E; apply (Hqs q Hin).
    + by apply classify_Bad_iff.
    + by apply classify_Good_iff.
    + by apply classify_VeryGood_iff.
Qed.

(** C5.  Classification and grouping raise nothing on integer quality
    scores.  The rule has an outcome for every integer, negative scores are
    Bad and scores above 10 are Very Good by the same branches; applying the
    rule to an integer column returns; the whole pipeline returns for every
    frame with an integer quality column and every column the frame has;
    and [values_by_class] returns on every frame that has the class column
    and the grouped column. *)
Theorem classification_and_grouping_never_raise (qs : list Z) :
  (∀ q : Z, ∃ c, map_quality_to_class q = class_value c) ∧
  (∀ q : Z, q < 0 → map_quality_to_class q = class_value Bad) ∧
  (∀ q : Z, 10 < q → map_quality_to_class q = class_value VeryGood) ∧
  (∀ idx, returns (apply_map_quality_to_class (mkSeries idx (IntArray qs)))) ∧
  (∀ df column,
     data df !! "quality"%string = Some (IntArray qs) →
     is_Some (data df !! column) →
     returns (add_quality_class df) ∧ returns (group_values df column)) ∧
  (∀ df_classed column,
     is_Some (data df_classed !! "quality_class"%string) →
     is_Some (data df_classed !! column) →
     returns (values_by_class df_classed column)).
Proof.
  split; [|split; [|split; [|split; [|split]]]].
  - intros q.
    destruct (classify_cases q) as [[_ H]|[[_ H]|[[_ H]|[_ H]]]]; by eexists.
  - intros q Hq. apply classify_lt4. lia.
  - intros q Hq. apply classify_gt7. lia.
  - intros idx. destruct qs; by eexists.
  - intros df column Hq Hcol. split.
    + rewrite add_quality_class_spec, Hq. by eexists.
    + rewrite group_values_spec, Hq. cbn [class_column].
      destruct (with_classes_lookup df (class_array (IntArray qs)) column Hcol)
        as [col ->].
      by eexists.
  - intros df_classed column [cls Hcls] [col Hcol].
    rewrite values_by_class_spec, Hcls, Hcol. by eexists.
Qed.

Lemma cell_int_inv d c i (q : Z) :
  cell d c i = Some (SInt q) →
  ∃ qs, data d !! c = Some (IntArray qs) ∧ qs !! i = Some q.
Proof.
  unfold cell. destruct (data d !! c) as [[xs|xs|xs]|]; [| | |done]; simpl;
    destruct (xs !! i) eqn:E; try done.
  intros [= ->]. by exists xs.
Qed.

(** The class a row gets is the rule applied to that row's quality. *)
Lemma cell_quality_class df df1 i (q : Z) :
  add_quality_class df = Ok df1 →
  cell df "quality" i = Some (SInt q) →
  cell df1 "quality_class" i = Some (SObj (map_quality_to_class q)).
Proof.
  intros Hadd (qs & Hq & Hi)%cell_int_inv.
  rewrite add_quality_class_spec, Hq in Hadd. injection Hadd as <-.
  unfold cell, with_classes; cbn [data]. rewrite lookup_insert_eq.
  destruct qs as [|q0 qs]; [done|].
  cbn [mbind option_bind class_array arr_lookup].
  by rewrite list_lookup_fmap, Hi.
Qed.

(** C6.  The class of a record is a function of its quality alone: take
    any two frames, whatever their other columns, their sizes and the
    order of their rows, and any two rows, one in each, with the same
    integer quality [q]; after classification both rows carry the class
    [map_quality_to_class q]. *)
Theorem class_depends_on_quality_only df df' df1 df1' i j (q : Z) :
  add_quality_class df = Ok df1 →
  add_quality_class df' = Ok df1' →
  cell df "quality" i = Some (SInt q) →
  cell df' "quality" j = Some (SInt q) →
  cell df1 "quality_class" i = Some (SObj (map_quality_to_class q)) ∧
  cell df1' "quality_class" j = cell df1 "quality_class" i.
Proof.
  intros Hadd Hadd' Hi Hj.
  rewrite (cell_quality_class _ _ _ _ Hadd Hi).
  by rewrite (cell_quality_class _ _ _ _ Hadd' Hj).
Qed.

Lemma add_quality_class_inv df df1 :
  add_quality_class df = Ok df1 →
  ∃ qa cls,
    data df !! "quality"%string = Some qa ∧ class_column qa = Some cls ∧
    df1 = with_classes df (class_array qa).
Proof.
  rewrite add_quality_class_spec.
  destruct (data df !! "quality"%string) as [qa|]; [|done].
  destruct (class_column qa) as [cls|] eqn:E; [|done].
  intros [= <-]. by exists qa, cls.
Qed.

(** C7.  Running the classification step on a frame it has already been
    run on returns that same frame: the class column, and with it the
    class of every record, is the one the first run assigned. *)
Theorem classification_idempotent df df1 :
  add_quality_class df = Ok df1 →
  add_quality_class df1 = Ok df1 ∧
  ∀ i, cell df1 "quality" i = cell df "quality" i.
Proof.
  intros (qa & cls & Hq & Hcls & ->)%add_quality_class_inv. split.
  - rewrite add_quality_class_spec. unfold with_classes at 1; cbn [data].
    rewrite lookup_insert_ne by done. rewrite Hq, Hcls.
    unfold with_classes; cbn [data index]. by rewrite insert_insert_eq.
  - intros i. by apply cell_with_classes_ne.
Qed.

(** ** The store *)

Lemma read_global_Some σ x r d :
  globals σ !! x = Some r → heap σ !! r = Some d → read_global σ x = Ok (r, d).
Proof. intros Hx Hr. unfold read_global. by rewrite Hx, Hr. Qed.

Lemma alloc_fresh σ d r σ' :
  alloc σ d = (r, σ') →
  heap σ !! r = None ∧ heap σ' = <[r := d]> (heap σ) ∧ globals σ' = globals σ.
Proof.
  unfold alloc. intros [= <- <-]. split; [|done].
  apply not_elem_of_dom, is_fresh.
Qed.

(** C9.  Line 209 changes the frame behind [df] by the class column and
    nothing else: the row labels, hence the number and order of the
    records, and every column other than [quality_class], in particular
    [quality] and the attributes, are as before, entry by entry.  Line 212
    then leaves that frame as it is: [df] still refers to it, and
    [df_classed] refers to another object that holds the filtered rows. *)
Theorem classification_preserves_other_fields σ σ1 σ2 r d :
  globals σ !! "df"%string = Some r →
  heap σ !! r = Some d →
  line_209 σ = Ok σ1 →
  line_212 σ1 = Ok σ2 →
  ∃ d1,
    globals σ1 = globals σ ∧
    heap σ1 !! r = Some d1 ∧
    add_quality_class d = Ok d1 ∧
    index d1 = index d ∧
    (∀ c, c ≠ "quality_class"%string → data d1 !! c = data d !! c) ∧
    (∀ c i, c ≠ "quality_class"%string → cell d1 c i = cell d c i) ∧
    (∀ r', r' ≠ r → heap σ1 !! r' = heap σ !! r') ∧
    globals σ2 !! "df"%string = Some r ∧
    heap σ2 !! r = Some d1 ∧
    (∀ r', is_Some (heap σ1 !! r') → heap σ2 !! r' = heap σ1 !! r') ∧
    ∃ r2 df_classed,
      globals σ2 !! "df_classed"%string = Some r2 ∧
      r2 ≠ r ∧
      heap σ2 !! r2 = Some df_classed ∧
      drop_unclassified d1 = Ok df_classed.
Proof.
  intros Hdf Hr H209 H212.
  unfold line_209 in H209. rewrite (read_global_Some _ _ _ _ Hdf Hr) in H209.
  cbn [mbind result_bind] in H209.
  destruct (add_quality_class d) as [d1|] eqn:Hadd; [|done].
  injection H209 as <-.
  destruct (add_quality_class_inv _ _ Hadd) as (qa & cls & Hq & Hcls & Hd1).
  unfold line_212 in H212.
  rewrite (read_global_Some _ "df" r d1) in H212;
    [|done|by cbn [heap]; rewrite lookup_insert_eq].
  cbn [mbind result_bind] in H212.
  destruct (drop_unclassified d1) as [dc|] eqn:Hdrop; [|done].
  cbn [mbind result_bind] in H212.
  destruct (alloc _ dc) as [r1 τ1] eqn:A1.
  destruct (alloc τ1 dc) as [r2 τ2] eqn:A2.
  injection H212 as <-.
  apply alloc_fresh in A1 as (F1 & H1 & G1).
  apply alloc_fresh in A2 as (F2 & H2 & G2).
  cbn [heap globals] in *.
  assert (r1 ≠ r) as N1 by (intros ->; by rewrite lookup_insert_eq in F1).
  assert (r2 ≠ r) as N2.
  { intros ->. rewrite H1, lookup_insert_ne, lookup_insert_eq in F2; done. }
  exists d1. split; [done|]. split; [by rewrite lookup_insert_eq|].
  split; [done|]. split; [by rewrite Hd1|].
  split. { intros c Hc. rewrite Hd1. cbn [with_classes data].
           by rewrite lookup_insert_ne. }
  split. { intros c i Hc. rewrite Hd1. by apply cell_with_classes_ne. }
  split. { intros r' Hr'. by rewrite lookup_insert_ne. }
  split. { rewrite G2, G1. by rewrite lookup_insert_ne. }
  split. { rewrite H2, H1. rewrite !lookup_insert_ne by done.
           by rewrite lookup_insert_eq. }
  split.
  { intros r' [x Hx]. rewrite H2, H1.
    assert (r1 ≠ r') as N1' by (intros ->; congruence).
    assert (r2 ≠ r') as N2'.
    { intros ->. rewrite H1, lookup_insert_ne in F2 by done. congruence. }
    by rewrite !lookup_insert_ne by done. }
  exists r2, dc. split; [by rewrite lookup_insert_eq|].
  split; [done|]. split; [by rewrite H2, lookup_insert_eq|done].
Qed.

(** ** The theorems at the sample frames *)

Lemma scenario_loaded : loaded scenario.
Proof.
  split; [|reflexivity]. unfold wf_frame, scenario; cbn [data index].
  repeat apply map_Forall_insert_2; try reflexivity. apply map_Forall_empty.
Defined.

Lemma mixed_rows_loaded : loaded mixed_rows.
Proof.
  split; [|reflexivity]. unfold wf_frame, mixed_rows; cbn [data index].
  repeat apply map_Forall_insert_2; try reflexivity. apply map_Forall_empty.
Defined.

Lemma header_only_wf : wf_frame header_only.
Proof.
  unfold wf_frame, header_only; cbn [data index].
  repeat apply map_Forall_insert_2; try reflexivity. apply map_Forall_empty.
Defined.

Lemma no_bad_rows_wf : wf_frame no_bad_rows.
Proof.
  unfold wf_frame, no_bad_rows; cbn [data index].
  repeat apply map_Forall_insert_2; try reflexivity. apply map_Forall_empty.
Defined.

(** The scenario of the specification: the classes are Bad, unclassified,
    Good, Very Good; the three buckets over [alcohol] hold one value each,
    three in all, and the row of quality 4 is in none. *)
Example scenario_classes_ok : add_quality_class scenario = Ok scenario_classes.
Proof. reflexivity. Qed.

Example scenario_classed_ok : drop_unclassified scenario_classes = Ok scenario_classed.
Proof. reflexivity. Qed.

Example scenario_buckets :
  group_values scenario "alcohol" =
  Ok [FloatArray [Fin 9.4]; FloatArray [Fin 9.8]; FloatArray [Fin 12.5]].
Proof. reflexivity. Qed.

Example apply_keeps_empty_column :
  apply_map_quality_to_class (mkSeries [] (IntArray [])) =
  Ok (mkSeries [] (IntArray [])).
Proof. reflexivity. Qed.

Example header_only_buckets :
  group_values header_only "alcohol" = Ok [ObjArray []; ObjArray []; ObjArray []].
Proof. reflexivity. Qed.

Example missing_column_raises :
  group_values scenario "density" = Raise (KeyError "density").
Proof. reflexivity. Qed.

Lemma buckets_exclude_unclassified_witness :
  loaded scenario ∧
  data scenario !! "quality"%string = Some (IntArray [3; 4; 5; 8]) ∧
  group_series scenario "alcohol" = Ok scenario_series ∧
  ∃ df1 df_classed,
    add_quality_class scenario = Ok df1 ∧
    drop_unclassified df1 = Ok df_classed ∧
    values_by_class df_classed "alcohol" = Ok (values <$> scenario_series) ∧
    (∀ i, i ∈ index df_classed → ∃ q : Z, [3; 4; 5; 8] !! i = Some q ∧ q ≠ 4) ∧
    (∀ s k v, s ∈ scenario_series → arr_lookup (values s) k = Some v →
       ∃ (i : nat) (q : Z),
         s_index s !! k = Some i ∧ i ∈ index df_classed ∧
         [3; 4; 5; 8] !! i = Some q ∧ q ≠ 4 ∧ cell df1 "alcohol" i = Some v).
Proof.
  split; [exact scenario_loaded|]. split; [reflexivity|]. split; [reflexivity|].
  apply (buckets_exclude_unclassified scenario "alcohol" [3; 4; 5; 8] scenario_series);
    [exact scenario_loaded | reflexivity | reflexivity].
Defined.

Lemma bucket_lengths_sum_witness :
  loaded scenario ∧
  group_values scenario "alcohol" = Ok (values <$> scenario_series) ∧
  sum_list (arr_length <$> (values <$> scenario_series)) =
    length (filter (λ q, q ≠ 4) [3; 4; 5; 8]).
Proof.
  split; [exact scenario_loaded|]. split; [reflexivity|].
  apply (bucket_lengths_sum scenario "alcohol" [3; 4; 5; 8]);
    [exact scenario_loaded | reflexivity | reflexivity].
Defined.

Lemma buckets_preserve_order_witness :
  loaded mixed_rows ∧
  group_series mixed_rows "alcohol" = Ok mixed_rows_series ∧
  ∃ df1,
    add_quality_class mixed_rows = Ok df1 ∧
    group_values mixed_rows "alcohol" = Ok (values <$> mixed_rows_series) ∧
    ∀ s, s ∈ mixed_rows_series →
      length (s_index s) = arr_length (values s) ∧
      (∀ k i, s_index s !! k = Some i →
         is_Some (cell df1 "alcohol" i) ∧
         arr_lookup (values s) k = cell df1 "alcohol" i) ∧
      (∀ k1 k2 i1 i2, (k1 < k2)%nat →
         s_index s !! k1 = Some i1 → s_index s !! k2 = Some i2 →
         (i1 < i2)%nat).
Proof.
  split; [exact mixed_rows_loaded|]. split; [reflexivity|].
  apply (buckets_preserve_order mixed_rows "alcohol"
           [5; 3; 8; 4; 6; 2; 9; 7; 1] mixed_rows_series);
    [exact mixed_rows_loaded | reflexivity | reflexivity].
Defined.

Lemma class_depends_on_quality_only_witness :
  add_quality_class scenario = Ok scenario_classes ∧
  add_quality_class other_frame = Ok other_frame_classes ∧
  cell scenario "quality" 2 = Some (SInt 5) ∧
  cell other_frame "quality" 0 = Some (SInt 5) ∧
  cell scenario_classes "quality_class" 2 = Some (SObj (map_quality_to_class 5)) ∧
  cell other_frame_classes "quality_class" 0 = cell scenario_classes "quality_class" 2.
Proof.
  do 4 (split; [reflexivity|]).
  apply (class_depends_on_quality_only scenario other_frame
           scenario_classes other_frame_classes 2 0 5); reflexivity.
Defined.

Lemma classification_idempotent_witness :
  add_quality_class scenario = Ok scenario_classes ∧
  add_quality_class scenario_classes = Ok scenario_classes ∧
  ∀ i, cell scenario_classes "quality" i = cell scenario "quality" i.
Proof.
  split; [reflexivity|].
  apply (classification_idempotent scenario scenario_classes). reflexivity.
Defined.

Lemma empty_class_gives_empty_bucket_witness :
  wf_frame header_only ∧
  wf_frame no_bad_rows ∧
  (∃ b1 b2 b3,
     group_values header_only "alcohol" = Ok [b1; b2; b3] ∧
     arr_length b1 = 0%nat ∧ arr_length b2 = 0%nat ∧ arr_length b3 = 0%nat) ∧
  (∃ b1 b2 b3,
     group_values no_bad_rows "alcohol" = Ok [b1; b2; b3] ∧
     arr_length b1 = 0%nat).
Proof.
  split; [exact header_only_wf|]. split; [exact no_bad_rows_wf|]. split.
  - destruct (empty_class_gives_empty_bucket header_only "alcohol")
      as [H _]; [exact header_only_wf | by eexists |].
    apply H; [reflexivity | by eexists].
  - destruct (empty_class_gives_empty_bucket no_bad_rows "alcohol")
      as [_ H]; [exact no_bad_rows_wf | by eexists |].
    destruct (H [6; 4; 9] eq_refl) as (b1 & b2 & b3 & Hb & H1 & _).
    exists b1, b2, b3. split; [exact Hb|]. apply H1.
    intros q Hq. rewrite !elem_of_cons, elem_of_nil in Hq. lia.
Defined.

Lemma three_buckets_in_fixed_order_witness :
  values_by_class scenario_classed "pH" =
    Ok [FloatArray [Fin 3.51]; FloatArray [Fin 3.26]; FloatArray [NaN]] ∧
  length [FloatArray [Fin 3.51]; FloatArray [Fin 3.26]; FloatArray [NaN]] = 3%nat.
Proof.
  split; [reflexivity|].
  apply (three_buckets_in_fixed_order scenario_classed "pH"). reflexivity.
Defined.

Lemma classification_preserves_other_fields_witness :
  line_209 (initial_store scenario) = Ok scenario_store_209 ∧
  line_212 scenario_store_209 = Ok scenario_store_212 ∧
  heap scenario_store_209 !! 0%nat = Some scenario_classes ∧
  heap scenario_store_212 !! 0%nat = Some scenario_classes ∧
  globals scenario_store_212 !! "df_classed"%string = Some 2%nat ∧
  (∀ c i, c ≠ "quality_class"%string →
     cell scenario_classes c i = cell scenario c i).
Proof.
  do 5 (split; [reflexivity|]).
  destruct (classification_preserves_other_fields
              (initial_store scenario) scenario_store_209 scenario_store_212
              0%nat scenario)
    as (d1 & _ & H1 & _ & _ & _ & Hcell & _);
    [reflexivity | reflexivity | reflexivity | reflexivity |].
  injection H1 as <-. exact Hcell.
Defined.

(** * Further properties of the code *)

(** ** The class rule on floats *)

Lemma float_cmp_Fin (q : Q) (k : Z) :
  float_cmp (Fin q) k = Some (q ?= inject_Z k)%Q.
Proof. reflexivity. Qed.

(** X1.  On a float score the rule has the same ranges as on integers and
    no other gap: a finite score is unclassified only if it equals 4, NaN is
    unclassified because every comparison with it is false, minus infinity
    is Bad and plus infinity is Very Good. *)
Theorem classify_float (x : float64) :
  (map_quality_to_class x = Some "Bad"%string ↔
     x = Inf true ∨ ∃ q, x = Fin q ∧ (q < 4)%Q) ∧
  (map_quality_to_class x = Some "Good"%string ↔
     ∃ q, x = Fin q ∧ (4 < q)%Q ∧ (q <= 7)%Q) ∧
  (map_quality_to_class x = Some "Very Good"%string ↔
     x = Inf false ∨ ∃ q, x = Fin q ∧ (7 < q)%Q) ∧
  (map_quality_to_class x = None ↔
     x = NaN ∨ ∃ q, x = Fin q ∧ (q == 4)%Q).
Proof.
  destruct x as [|[|]|q].
  - repeat split; try done; try (by intros [?|(? & ? & ?)]);
      try (by intros (? & ? & ?)); by left.
  - repeat split; try done; try (by intros [?|(? & ? & ?)]);
      try (by intros (? & ? & ?)); by left.
  - repeat split; try done; try (by intros [?|(? & ? & ?)]);
      try (by intros (? & ? & ?)); by left.
  - unfold map_quality_to_class; cbn [lt_lit gt_lit le_lit float_number].
    rewrite !float_cmp_Fin.
    change (inject_Z 4) with 4%Q. change (inject_Z 7) with 7%Q.
    destruct (q ?= 4)%Q eqn:E4; destruct (q ?= 7)%Q eqn:E7;
      first [apply Qeq_alt in E4 | apply Qlt_alt in E4 | apply Qgt_alt in E4];
      first [apply Qeq_alt in E7 | apply Qlt_alt in E7 | apply Qgt_alt in E7];
      cbn [andb]; repeat split;
      try (intros [= ]); try (intros [[= ]|(q' & [= <-] & H)]);
      try (intros (q' & [= <-] & H)); try (intros (q' & [= <-] & H & H'));
      try lra; try (left; fail);
      try (right; exists q; split; [done|lra]);
      try (exists q; split; [done|lra]).
Qed.

(** ** The rows of the buckets *)

Lemma mask_filter_sublist {A} (mask : list bool) (l : list A) :
  mask_filter mask l `sublist_of` l.
Proof.
  revert l. induction mask as [|b mask IH]; intros [|x l]; cbn [mask_filter];
    try apply sublist_nil_l.
  destruct b; [apply sublist_skip | apply sublist_cons]; apply IH.
Qed.

Lemma mask_filter_fmap {A B} (f : A → B) (mask : list bool) (l : list A) :
  mask_filter mask (f <$> l) = f <$> mask_filter mask l.
Proof.
  revert l. induction mask as [|b mask IH]; intros [|x l]; try done.
  rewrite fmap_cons. cbn [mask_filter]. destruct b; [rewrite fmap_cons|];
    by rewrite IH.
Qed.

Lemma mask_filter_seq_NoDup (mask : list bool) (j n : nat) :
  NoDup (mask_filter mask (seq j n)).
Proof. eapply sublist_NoDup; [apply NoDup_seq | apply mask_filter_sublist]. Qed.

Lemma is_class_true label o : is_class label o = true ↔ o = Some label.
Proof. unfold is_class. apply bool_decide_eq_true. Qed.

(** X2.  On a loaded frame with integer quality scores the rows of the
    three buckets are known exactly: the first bucket holds the rows with
    quality below 4 and no others, the second the rows with quality 5 to 7,
    the third the rows with quality above 7, and no bucket holds a row
    twice. *)
Theorem bucket_rows df column qs ss :
  loaded df →
  data df !! "quality"%string = Some (IntArray qs) →
  group_series df column = Ok ss →
  ∃ bad good very_good,
    ss = [bad; good; very_good] ∧
    NoDup (s_index bad) ∧ NoDup (s_index good) ∧ NoDup (s_index very_good) ∧
    ∀ i : nat,
      (i ∈ s_index bad ↔ ∃ q : Z, qs !! i = Some q ∧ q < 4) ∧
      (i ∈ s_index good ↔ ∃ q : Z, qs !! i = Some q ∧ 4 < q ≤ 7) ∧
      (i ∈ s_index very_good ↔ ∃ q : Z, qs !! i = Some q ∧ 7 < q).
Proof.
  intros Hl Hq Hss.
  destruct (group_series_loaded _ _ _ _ Hl Hq Hss)
    as (col & Hidx & _ & _ & _ & _ & _ & ->).
  eexists _, _, _. split; [reflexivity|].
  cbn [select_class s_index]. rewrite Hidx.
  split; [apply mask_filter_seq_NoDup|].
  split; [apply mask_filter_seq_NoDup|].
  split; [apply mask_filter_seq_NoDup|].
  intros i. rewrite !class_mask_elem. repeat split.
  - intros (q & Hi & Hc). exists q. split; [done|].
    by apply classify_Bad_iff, is_class_true.
  - intros (q & Hi & Hc). exists q. split; [done|].
    by apply is_class_true, classify_Bad_iff.
  - intros (q & Hi & Hc). exists q. split; [done|].
    by apply classify_Good_iff, is_class_true.
  - intros (q & Hi & Hc). exists q. split; [done|].
    by apply is_class_true, classify_Good_iff.
  - intros (q & Hi & Hc). exists q. split; [done|].
    by apply classify_VeryGood_iff, is_class_true.
  - intros (q & Hi & Hc). exists q. split; [done|].
    by apply is_class_true, classify_VeryGood_iff.
Qed.

Lemma bucket_rows_witness :
  loaded scenario ∧
  group_series scenario "pH" =
    Ok [mkSeries [0%nat] (FloatArray [Fin 3.51]);
        mkSeries [2%nat] (FloatArray [Fin 3.26]);
        mkSeries [3%nat] (FloatArray [NaN])] ∧
  ∃ bad good very_good,
    [mkSeries [0%nat] (FloatArray [Fin 3.51]);
     mkSeries [2%nat] (FloatArray [Fin 3.26]);
     mkSeries [3%nat] (FloatArray [NaN])] = [bad; good; very_good] ∧
    NoDup (s_index bad) ∧ NoDup (s_index good) ∧ NoDup (s_index very_good) ∧
    ∀ i : nat,
      (i ∈ s_index bad ↔ ∃ q : Z, [3; 4; 5; 8] !! i = Some q ∧ q < 4) ∧
      (i ∈ s_index good ↔ ∃ q : Z, [3; 4; 5; 8] !! i = Some q ∧ 4 < q ≤ 7) ∧
      (i ∈ s_index very_good ↔ ∃ q : Z, [3; 4; 5; 8] !! i = Some q ∧ 7 < q).
Proof.
  split; [exact scenario_loaded|]. split; [reflexivity|].
  apply (bucket_rows scenario "pH" [3; 4; 5; 8]);
    [exact scenario_loaded | reflexivity | reflexivity].
Defined.

(** ** The frame [df_classed] *)

Lemma notna_class_mask (qs : list Z) :
  mask_filter (notna <$> (map_quality_to_class <$> qs)) qs = filter (λ q, q ≠ 4) qs.
Proof.
  induction qs as [|q qs IH]; [done|].
  rewrite !fmap_cons, filter_cons. cbn [mask_filter].
  destruct (classify_cases q) as [[Hq E]|[[Hq E]|[[Hq E]|[Hq E]]]]; rewrite E;
    cbn [class_value notna];
    first [rewrite decide_True by lia | rewrite decide_False by lia];
    by rewrite IH.
Qed.

Lemma arr_select_wf mask a n :
  length mask = n → arr_length a = n →
  arr_length (arr_select mask a) = length (mask_filter mask (seq 0 n)).
Proof.
  intros Hm Ha. rewrite arr_select_length by lia.
  rewrite mask_filter_length; [done|]. rewrite length_seq. lia.
Qed.

(** X3.  What [df_classed] is, for a loaded frame with integer quality
    scores: a well-formed frame whose row labels are the positions of the
    scores other than 4, in increasing order; its quality column is the
    input's without the 4s; its class column is the rule applied to that
    quality column, an object array without a missing entry.  On a frame
    without rows the class column is the empty integer column that
    [apply] handed back at line 209. *)
Theorem df_classed_invariant df qs df1 df_classed :
  loaded df →
  data df !! "quality"%string = Some (IntArray qs) →
  add_quality_class df = Ok df1 →
  drop_unclassified df1 = Ok df_classed →
  wf_frame df_classed ∧
  (∀ i : nat, i ∈ index df_classed ↔ ∃ q : Z, qs !! i = Some q ∧ q ≠ 4) ∧
  (∀ k1 k2 i1 i2 : nat, (k1 < k2)%nat →
     index df_classed !! k1 = Some i1 → index df_classed !! k2 = Some i2 →
     (i1 < i2)%nat) ∧
  data df_classed !! "quality"%string = Some (IntArray (filter (λ q, q ≠ 4) qs)) ∧
  data df_classed !! "quality_class"%string =
    Some (match qs with
          | [] => IntArray []
          | _ :: _ =>
              ObjArray (map_quality_to_class <$> filter (λ q, q ≠ 4) qs)
          end) ∧
  None ∉ (map_quality_to_class <$> filter (λ q, q ≠ 4) qs).
Proof.
  intros Hl Hq Hadd Hdrop.
  pose proof (loaded_quality _ _ Hl Hq) as Hidx.
  rewrite add_quality_class_spec, Hq in Hadd. cbn [class_column] in Hadd.
  assert (df1 = with_classes df (class_array (IntArray qs))) as ->
    by congruence.
  rewrite (drop_unclassified_spec df (IntArray qs) (map_quality_to_class <$> qs))
    in Hdrop by done.
  assert (df_classed =
          mkFrame (mask_filter (notna <$> (map_quality_to_class <$> qs)) (index df))
            (arr_select (notna <$> (map_quality_to_class <$> qs)) <$>
               data (with_classes df (class_array (IntArray qs))))) as ->
    by congruence.
  cbn [index data with_classes]. rewrite Hidx.
  split; [|split; [|split; [|split; [|split]]]].
  - intros c a. cbn [data index]. rewrite lookup_fmap.
    destruct (_ !! c) as [a0|] eqn:Hc; [|done]. intros [= <-].
    apply arr_select_wf; [by rewrite !length_fmap|].
    rewrite <-(length_seq (length qs) 0), <-Hidx.
    apply (wf_frame_lookup (with_classes df (class_array (IntArray qs))) c);
      [|exact Hc].
    apply wf_with_classes; [apply Hl|].
    by rewrite class_array_length, Hidx, length_seq.
  - intros i. rewrite class_mask_elem. split.
    + intros (q & Hi & Hc). exists q. split; [done|].
      destruct (map_quality_to_class q) as [label|] eqn:E; [|done].
      by eapply classified_not_4.
    + intros (q & Hi & Hc). exists q. split; [done|].
      destruct (map_quality_to_class q) as [label|] eqn:E; [done|].
      by apply (classify_None_iff q) in E.
  - intros k1 k2 i1 i2. apply mask_filter_seq_mono.
  - rewrite lookup_fmap, lookup_insert_ne by done. rewrite Hq.
    cbn [fmap option_fmap option_map arr_select]. by rewrite notna_class_mask.
  - rewrite lookup_fmap, lookup_insert_eq.
    destruct qs as [|q qs]; [done|].
    cbn [fmap option_fmap option_map class_array arr_select].
    by rewrite mask_filter_fmap, notna_class_mask.
  - intros (q & Hc & Hin)%list_elem_of_fmap.
    apply list_elem_of_filter in Hin as [Hne _].
    symmetry in Hc. by apply (classify_None_iff q) in Hc.
Qed.

Lemma df_classed_invariant_witness :
  loaded scenario ∧
  add_quality_class scenario = Ok scenario_classes ∧
  drop_unclassified scenario_classes = Ok scenario_classed ∧
  wf_frame scenario_classed ∧
  data scenario_classed !! "quality"%string =
    Some (IntArray (filter (λ q, q ≠ 4) [3; 4; 5; 8])) ∧
  data scenario_classed !! "quality_class"%string =
    Some (ObjArray (map_quality_to_class <$> filter (λ q, q ≠ 4) [3; 4; 5; 8])).
Proof.
  split; [exact scenario_loaded|]. split; [reflexivity|]. split; [reflexivity|].
  destruct (df_classed_invariant scenario [3; 4; 5; 8] scenario_classes
              scenario_classed) as (Hwf & _ & _ & Hq & Hc & _);
    [exact scenario_loaded | reflexivity | reflexivity | reflexivity |].
  split; [exact Hwf|]. split; [exact Hq | exact Hc].
Defined.

(** ** The buckets together *)

(** The three class masks split what the mask of classified rows keeps. *)
Lemma class_masks_partition {A} (qs : list Z) (l : list A) :
  let cls := map_quality_to_class <$> qs in
  mask_filter (is_class "Bad" <$> cls) l ++
  mask_filter (is_class "Good" <$> cls) l ++
  mask_filter (is_class "Very Good" <$> cls) l
  ≡ₚ mask_filter (notna <$> cls) l.
Proof.
  cbn zeta. revert l. induction qs as [|q qs IH]; intros [|x l]; try done.
  rewrite !fmap_cons.
  destruct (classify_cases q) as [[Hq E]|[[Hq E]|[[Hq E]|[Hq E]]]]; rewrite E;
    cbn [class_value];
    repeat match goal with
    | |- context [is_class ?l (Some ?c)] =>
        let b := eval vm_compute in (is_class l (Some c)) in
        change (is_class l (Some c)) with b
    | |- context [is_class ?l None] => change (is_class l None) with false
    end; cbn [mask_filter notna].
  - cbn [app]. by rewrite IH.
  - rewrite <-IH. cbn [app]. by rewrite <-Permutation_middle.
  - rewrite <-IH. rewrite (app_assoc _ _ (x :: _)).
    rewrite <-Permutation_middle. by rewrite <-app_assoc.
  - apply IH.
Qed.

Lemma arr_items_select mask a :
  arr_items (arr_select mask a) = mask_filter mask (arr_items a).
Proof. destruct a; simpl; by rewrite mask_filter_fmap. Qed.

(** X4.  The buckets split [df_classed]: its row labels are distinct, the
    labels of the three buckets together are a rearrangement of them, and
    the values of the three buckets together are a rearrangement of the
    entries of the grouped column of [df_classed].  Every classified row is
    thus in one bucket, once. *)
Theorem buckets_partition_df_classed df column qs ss :
  loaded df →
  data df !! "quality"%string = Some (IntArray qs) →
  group_series df column = Ok ss →
  ∃ df1 df_classed col,
    add_quality_class df = Ok df1 ∧
    drop_unclassified df1 = Ok df_classed ∧
    data df_classed !! column = Some col ∧
    NoDup (index df_classed) ∧
    concat (s_index <$> ss) ≡ₚ index df_classed ∧
    concat (arr_items <$> (values <$> ss)) ≡ₚ arr_items col.
Proof.
  intros Hl Hq Hss.
  destruct (group_series_loaded _ _ _ _ Hl Hq Hss)
    as (col & Hidx & Hlen & Hcol & Hadd & Hdrop & Hser & ->).
  eexists _, _, _. split; [exact Hadd|]. split; [exact Hdrop|].
  cbn [index data]. split.
  { rewrite lookup_fmap, Hcol. reflexivity. }
  split; [rewrite Hidx; apply mask_filter_seq_NoDup|]. split.
  - cbn [bucket_labels fmap list_fmap concat select_class s_index].
    rewrite app_nil_r. apply class_masks_partition.
  - cbn [bucket_labels fmap list_fmap concat select_class values].
    rewrite app_nil_r, !arr_items_select. apply class_masks_partition.
Qed.

Lemma buckets_partition_df_classed_witness :
  loaded scenario ∧
  group_series scenario "alcohol" = Ok scenario_series ∧
  ∃ df1 df_classed col,
    add_quality_class scenario = Ok df1 ∧
    drop_unclassified df1 = Ok df_classed ∧
    data df_classed !! "alcohol"%string = Some col ∧
    NoDup (index df_classed) ∧
    concat (s_index <$> scenario_series) ≡ₚ index df_classed ∧
    concat (arr_items <$> (values <$> scenario_series)) ≡ₚ arr_items col.
Proof.
  split; [exact scenario_loaded|]. split; [reflexivity|].
  apply (buckets_partition_df_classed scenario "alcohol" [3; 4; 5; 8]);
    [exact scenario_loaded | reflexivity | reflexivity].
Defined.

(** ** Exceptions of the pipeline *)

Lemma class_column_Some qa :
  is_Some (class_column qa) ↔ ∀ o os, qa ≠ ObjArray (o :: os).
Proof.
  destruct qa as [qs|qs|[|o os]]; simpl; split; try done; try (by eexists).
  intros H. by destruct (H o os).
Qed.

(** X5.  Which exception lines 209-220 raise, and when they return.  A
    frame without a quality column raises [KeyError] for "quality",
    whatever the grouped column is; a quality column of strings or [None]
    raises [TypeError] at the first comparison; otherwise a grouped column
    the frame does not have raises [KeyError] for that column, only after
    classification and filtering went through.  In every other case the
    call returns; grouping by [quality_class] itself always works. *)
Theorem group_values_exceptions df column :
  (data df !! "quality"%string = None →
     group_values df column = Raise (KeyError "quality")) ∧
  (∀ o os, data df !! "quality"%string = Some (ObjArray (o :: os)) →
     group_values df column = Raise TypeError) ∧
  (∀ qa, data df !! "quality"%string = Some qa →
     (∀ o os, qa ≠ ObjArray (o :: os)) →
     column ≠ "quality_class"%string → data df !! column = None →
     returns (add_quality_class df) ∧
     group_values df column = Raise (KeyError column)) ∧
  (returns (group_values df column) ↔
     ∃ qa, data df !! "quality"%string = Some qa ∧
           (∀ o os, qa ≠ ObjArray (o :: os)) ∧
           (column = "quality_class"%string ∨ is_Some (data df !! column))).
Proof.
  rewrite group_values_spec, add_quality_class_spec.
  split; [|split; [|split]].
  - by intros ->.
  - by intros o os ->.
  - intros qa -> [cls ->]%class_column_Some Hc Hcol. split; [by eexists|].
    unfold with_classes; cbn [data]. by rewrite lookup_insert_ne, Hcol.
  - destruct (data df !! "quality"%string) as [qa|] eqn:Hq.
    2: { split; [by intros [? ?] | by intros (? & ? & _)]. }
    destruct (class_column qa) as [cls|] eqn:Hcls.
    2: { split; [by intros [? ?]|]. intros (? & [= <-] & Hqa & _).
         apply class_column_Some in Hqa as [? Hqa]. congruence. }
    unfold with_classes; cbn [data]. rewrite lookup_insert.
    case_decide as Hc.
    + split; [|by eexists]. intros _. exists qa. split; [done|].
      split; [apply class_column_Some; by eexists | by left].
    + destruct (data df !! column) as [col|] eqn:Hcol.
      * split; [|by eexists]. intros _. exists qa. split; [done|].
        split; [apply class_column_Some; by eexists | right; by eexists].
      * split; [by intros [? ?]|].
        by intros (? & _ & _ & [?|[? ?]]).
Qed.

(** ** The script as it runs *)

Lemma line_209_inv σ r d σ1 :
  globals σ !! "df"%string = Some r → heap σ !! r = Some d →
  line_209 σ = Ok σ1 →
  ∃ d1, add_quality_class d = Ok d1 ∧
        σ1 = mkStore (<[r := d1]> (heap σ)) (globals σ).
Proof.
  intros Hdf Hr. unfold line_209. rewrite (read_global_Some _ _ _ _ Hdf Hr).
  cbn [mbind result_bind].
  destruct (add_quality_class d) as [d1|]; [|done].
  intros [= <-]. by exists d1.
Qed.

Lemma line_212_inv σ r d σ2 :
  globals σ !! "df"%string = Some r → heap σ !! r = Some d →
  line_212 σ = Ok σ2 →
  ∃ dc r2, drop_unclassified d = Ok dc ∧
           globals σ2 = <["df_classed"%string := r2]> (globals σ) ∧
           heap σ2 !! r2 = Some dc ∧ r2 ≠ r ∧ heap σ2 !! r = Some d.
Proof.
  intros Hdf Hr. unfold line_212. rewrite (read_global_Some _ _ _ _ Hdf Hr).
  cbn [mbind result_bind].
  destruct (drop_unclassified d) as [dc|]; [|done]. cbn [mbind result_bind].
  destruct (alloc σ dc) as [r1 τ1] eqn:A1.
  destruct (alloc τ1 dc) as [r2 τ2] eqn:A2.
  intros [= <-].
  apply alloc_fresh in A1 as (F1 & H1 & G1).
  apply alloc_fresh in A2 as (F2 & H2 & G2).
  assert (r1 ≠ r) as N1 by (intros ->; congruence).
  assert (r2 ≠ r) as N2.
  { intros ->. rewrite H1, lookup_insert_ne in F2 by done. congruence. }
  exists dc, r2. cbn [heap globals]. split; [done|].
  split; [by rewrite G2, G1|]. split; [by rewrite H2, lookup_insert_eq|].
  split; [done|]. by rewrite H2, H1, !lookup_insert_ne.
Qed.

(** X6.  Run in the order of the script, the statements and the call
    compose to the pipeline: after lines 209, 212 and 215 a call
    [values_by_class(column)] gives what classification, filtering and
    grouping of the frame behind [df] give.  The function is defined at
    line 215 only: at every earlier point of the script, before or after
    lines 209 and 212, the call raises [NameError] for the name
    [values_by_class]. *)
Theorem script_call_is_pipeline σ r d σ1 σ2 fs column :
  globals σ !! "df"%string = Some r →
  heap σ !! r = Some d →
  globals σ !! "values_by_class"%string = None →
  "values_by_class"%string ∉ fs →
  line_209 σ = Ok σ1 →
  line_212 σ1 = Ok σ2 →
  call_values_by_class (line_215 (mkModule σ2 fs)) column = group_values d column ∧
  call_values_by_class (mkModule σ fs) column =
    Raise (NameError "values_by_class") ∧
  call_values_by_class (mkModule σ1 fs) column =
    Raise (NameError "values_by_class") ∧
  call_values_by_class (mkModule σ2 fs) column =
    Raise (NameError "values_by_class").
Proof.
  intros Hdf Hr Hname Hfs H209 H212.
  destruct (line_209_inv _ _ _ _ Hdf Hr H209) as (d1 & Hadd & ->).
  destruct (line_212_inv (mkStore (<[r := d1]> (heap σ)) (globals σ)) r d1 σ2
              Hdf (lookup_insert_eq _ _ _) H212)
    as (dc & r2 & Hdrop & G2 & Hr2 & _ & _).
  cbn [globals] in G2. split; [|split; [|split]].
  - unfold call_values_by_class, line_215; cbn [objects functions].
    rewrite bool_decide_eq_true_2 by set_solver.
    unfold read_global; cbn [globals heap].
    rewrite lookup_delete_ne by done.
    rewrite G2, lookup_insert_eq, Hr2. cbn [mbind result_bind].
    unfold group_values. rewrite Hadd. cbn [mbind result_bind].
    by rewrite Hdrop.
  - unfold call_values_by_class; cbn [objects functions].
    by rewrite bool_decide_eq_false_2, Hname.
  - unfold call_values_by_class; cbn [objects functions globals].
    by rewrite bool_decide_eq_false_2, Hname.
  - unfold call_values_by_class; cbn [objects functions].
    rewrite bool_decide_eq_false_2 by done.
    by rewrite G2, lookup_insert_ne, Hname.
Qed.

Lemma script_call_is_pipeline_witness :
  line_209 (initial_store scenario) = Ok scenario_store_209 ∧
  line_212 scenario_store_209 = Ok scenario_store_212 ∧
  call_values_by_class
    (line_215 (mkModule scenario_store_212 {["top_correlations_with"%string]}))
    "alcohol" = group_values scenario "alcohol" ∧
  call_values_by_class
    (mkModule (initial_store scenario) {["top_correlations_with"%string]})
    "alcohol" = Raise (NameError "values_by_class") ∧
  call_values_by_class
    (mkModule scenario_store_209 {["top_correlations_with"%string]})
    "alcohol" = Raise (NameError "values_by_class") ∧
  call_values_by_class
    (mkModule scenario_store_212 {["top_correlations_with"%string]})
    "alcohol" = Raise (NameError "values_by_class").
Proof.
  split; [reflexivity|]. split; [reflexivity|].
  apply (script_call_is_pipeline (initial_store scenario) 0%nat scenario);
    try reflexivity.
  by intros ?%elem_of_singleton.
Defined.

Lemma filter_4_length (qs : list Z) :
  length qs =
  (length (filter (λ q : Z, q ≠ 4%Z) qs) + length (filter (λ q : Z, q = 4%Z) qs))%nat.
Proof.
  induction qs as [|q qs IH]; [done|]. rewrite !filter_cons.
  destruct (decide (q = 4)) as [->|Hq].
  - rewrite decide_False by (intros H; by apply H). cbn [length]. lia.
  - rewrite decide_True by done. cbn [length]. lia.
Qed.

Lemma group_values_lengths df column qs bs :
  loaded df →
  data df !! "quality"%string = Some (IntArray qs) →
  group_values df column = Ok bs →
  sum_list (arr_length <$> bs) = length (filter (λ q, q ≠ 4) qs).
Proof.
  intros Hl Hq Hbs. rewrite group_values_series in Hbs.
  destruct (group_series df column) as [ss|] eqn:Hss; [|done].
  injection Hbs as <-.
  destruct (group_series_loaded _ _ _ _ Hl Hq Hss)
    as (col & Hidx & Hlen & Hcol & Hadd & Hdrop & Hser & ->).
  rewrite <-class_counts.
  cbn [bucket_labels fmap list_fmap sum_list sum_list_with select_class values].
  rewrite !arr_select_length by (by rewrite !length_fmap, Hlen).
  unfold id. lia.
Qed.

(** X7.  The overall box plots, lines 244 and 252, read [df], not
    [df_classed]: after lines 209 and 212 [df[column].values] is still the
    whole column of the loaded frame, the rows of quality 4 included.  Its
    length is the total of the three class buckets plus the number of rows
    of quality 4. *)
Theorem overall_values_keep_all_rows σ r d σ1 σ2 column qs col bs :
  globals σ !! "df"%string = Some r →
  heap σ !! r = Some d →
  loaded d →
  data d !! "quality"%string = Some (IntArray qs) →
  data d !! column = Some col →
  column ≠ "quality_class"%string →
  line_209 σ = Ok σ1 →
  line_212 σ1 = Ok σ2 →
  group_values d column = Ok bs →
  overall_values σ2 column = Ok col ∧
  arr_length col = length qs ∧
  arr_length col =
    (sum_list (arr_length <$> bs) + length (filter (λ q : Z, q = 4%Z) qs))%nat.
Proof.
  intros Hdf Hr Hl Hq Hcol Hne H209 H212 Hbs.
  destruct (line_209_inv _ _ _ _ Hdf Hr H209) as (d1 & Hadd & ->).
  destruct (line_212_inv (mkStore (<[r := d1]> (heap σ)) (globals σ)) r d1 σ2
              Hdf (lookup_insert_eq _ _ _) H212)
    as (dc & r2 & Hdrop & G2 & Hr2 & Hne2 & Hd1).
  cbn [globals] in G2.
  assert (arr_length col = length qs) as Hlen.
  { rewrite (wf_frame_lookup _ _ _ (proj1 Hl) Hcol).
    by rewrite (loaded_quality _ _ Hl Hq), length_seq. }
  split; [|split; [done|]].
  - unfold overall_values, read_global.
    rewrite G2, lookup_insert_ne, Hdf, Hd1 by done. cbn [mbind result_bind].
    apply add_quality_class_inv in Hadd as (qa & cls & _ & _ & ->).
    unfold getitem, with_classes; cbn [data].
    by rewrite lookup_insert_ne, Hcol.
  - rewrite (group_values_lengths _ _ _ _ Hl Hq Hbs), Hlen.
    apply filter_4_length.
Qed.

Lemma overall_values_keep_all_rows_witness :
  loaded scenario ∧
  line_209 (initial_store scenario) = Ok scenario_store_209 ∧
  line_212 scenario_store_209 = Ok scenario_store_212 ∧
  group_values scenario "alcohol" = Ok (values <$> scenario_series) ∧
  overall_values scenario_store_212 "alcohol" =
    Ok (FloatArray [Fin 9.4; Fin 9.8; Fin 9.8; Fin 12.5]) ∧
  arr_length (FloatArray [Fin 9.4; Fin 9.8; Fin 9.8; Fin 12.5]) =
    length [3; 4; 5; 8] ∧
  arr_length (FloatArray [Fin 9.4; Fin 9.8; Fin 9.8; Fin 12.5]) =
    (sum_list (arr_length <$> (values <$> scenario_series)) +
     length (filter (λ q : Z, q = 4%Z) [3; 4; 5; 8]%Z))%nat.
Proof.
  split; [exact scenario_loaded|]. do 3 (split; [reflexivity|]).
  apply (overall_values_keep_all_rows (initial_store scenario) 0%nat scenario
           scenario_store_209 scenario_store_212 "alcohol" [3; 4; 5; 8]);
    try reflexivity; [exact scenario_loaded | done].
Defined.

(** ** The axis of the histogram *)

Lemma foldr_min_spec (q : Z) (qs : list Z) :
  foldr Z.min q qs ∈ q :: qs ∧ ∀ x, x ∈ q :: qs → foldr Z.min q qs ≤ x.
Proof.
  induction qs as [|y qs [IHin IHle]]; cbn [foldr].
  - split; [by left|]. intros x ->%list_elem_of_singleton. lia.
  - split.
    + destruct (Z.min_spec y (foldr Z.min q qs)) as [[_ ->]|[_ ->]].
      * right; by left.
      * apply elem_of_cons in IHin as [->|Hin]; [by left|]. by do 2 right.
    + intros x Hx. apply elem_of_cons in Hx as [->|Hx].
      * specialize (IHle q (ltac:(by left))). lia.
      * apply elem_of_cons in Hx as [->|Hx]; [lia|].
        specialize (IHle x (ltac:(by right))). lia.
Qed.

Lemma foldr_max_spec (q : Z) (qs : list Z) :
  foldr Z.max q qs ∈ q :: qs ∧ ∀ x, x ∈ q :: qs → x ≤ foldr Z.max q qs.
Proof.
  induction qs as [|y qs [IHin IHle]]; cbn [foldr].
  - split; [by left|]. intros x ->%list_elem_of_singleton. lia.
  - split.
    + destruct (Z.max_spec y (foldr Z.max q qs)) as [[_ ->]|[_ ->]].
      * apply elem_of_cons in IHin as [->|Hin]; [by left|]. by do 2 right.
      * right; by left.
    + intros x Hx. apply elem_of_cons in Hx as [->|Hx].
      * specialize (IHle q (ltac:(by left))). lia.
      * apply elem_of_cons in Hx as [->|Hx]; [lia|].
        specialize (IHle x (ltac:(by right))). lia.
Qed.

Lemma histogram_axis_nonempty (q : Z) (qs : list Z) :
  let min_q := foldr Z.min q qs in
  let max_q := foldr Z.max q qs in
  histogram_axis (q :: qs) =
  Returns (np_arange (inject_Z min_q - 0.5) (inject_Z max_q + 1.5) 1.0,
           py_range min_q (max_q + 1)).
Proof. reflexivity. Qed.

(** X8.  The histogram section needs at least one row: on an empty
    quality column [min()] is NaN and [int] raises [ValueError].  On any
    other column the ticks are the consecutive integers from the least to
    the greatest score; both occur in the column, and every score of the
    column is a tick. *)
Theorem histogram_ticks (qs : list Z) :
  (qs = [] → histogram_axis qs = Raises ValueError) ∧
  (qs ≠ [] →
     ∃ min_q max_q bins,
       histogram_axis qs = Returns (bins, seqZ min_q (max_q - min_q + 1)) ∧
       min_q ∈ qs ∧ max_q ∈ qs ∧
       (∀ q, q ∈ qs → min_q ≤ q ≤ max_q) ∧
       (∀ q, q ∈ qs → q ∈ seqZ min_q (max_q - min_q + 1))).
Proof.
  split; [by intros ->|]. destruct qs as [|q qs]; [done|]. intros _.
  destruct (foldr_min_spec q qs) as [Hmin Hle].
  destruct (foldr_max_spec q qs) as [Hmax Hge].
  eexists _, _, _. split.
  { rewrite histogram_axis_nonempty. unfold py_range.
    by replace (foldr Z.max q qs + 1 - foldr Z.min q qs)
      with (foldr Z.max q qs - foldr Z.min q qs + 1) by lia. }
  split; [done|]. split; [done|]. split.
  - intros x Hx. split; [by apply Hle | by apply Hge].
  - intros x Hx. apply elem_of_seqZ.
    specialize (Hle x Hx). specialize (Hge x Hx). lia.
Qed.

Lemma arange_count (a b : Z) :
  a ≤ b →
  Qceiling ((inject_Z b + 1.5 - (inject_Z a - 0.5)) / 1.0) = b - a + 2.
Proof.
  intros Hab.
  assert (((inject_Z b + 1.5 - (inject_Z a - 0.5)) / 1.0 == inject_Z (b - a + 2))%Q)
    as ->.
  { unfold Z.sub. rewrite !inject_Z_plus, inject_Z_opp. field. }
  apply Qceiling_Z.
Qed.

Lemma np_arange_lookup start stop step (i : nat) :
  (i < Z.to_nat (Qceiling ((stop - start) / step)))%nat →
  np_arange start stop step !! i = Some (start + inject_Z (Z.of_nat i) * step)%Q.
Proof.
  intros Hi. unfold np_arange.
  by rewrite list_lookup_fmap, lookup_seq_lt.
Qed.

Lemma np_arange_length start stop step :
  length (np_arange start stop step) =
  Z.to_nat (Qceiling ((stop - start) / step)).
Proof. unfold np_arange. by rewrite length_fmap, length_seq. Qed.

Lemma histogram_axis_inv qs bins ticks :
  histogram_axis qs = Returns (bins, ticks) →
  ∃ min_q max_q,
    min_q ≤ max_q ∧
    (∀ q, q ∈ qs → min_q ≤ q ≤ max_q) ∧
    bins = np_arange (inject_Z min_q - 0.5) (inject_Z max_q + 1.5) 1.0 ∧
    ticks = seqZ min_q (max_q - min_q + 1).
Proof.
  destruct qs as [|q qs]; [done|]. rewrite histogram_axis_nonempty.
  intros [= <- <-].
  destruct (foldr_min_spec q qs) as [Hmin Hle].
  destruct (foldr_max_spec q qs) as [Hmax Hge].
  exists (foldr Z.min q qs), (foldr Z.max q qs).
  split; [by apply Hge|].
  split; [intros x Hx; split; [by apply Hle | by apply Hge]|].
  split; [done|]. unfold py_range. f_equal. lia.
Qed.

(** X9.  There is one bin per tick, and each tick is the centre of its
    bin: the edges on its two sides are the tick minus one half and the
    tick plus one half. *)
Theorem histogram_bins_centred qs bins ticks :
  exact_scores qs →
  histogram_axis qs = Returns (bins, ticks) →
  length bins = S (length ticks) ∧
  ∀ (i : nat) (t : Z), ticks !! i = Some t →
    ∃ lo hi, bins !! i = Some lo ∧ bins !! S i = Some hi ∧
             (lo == inject_Z t - (1 # 2))%Q ∧ (hi == inject_Z t + (1 # 2))%Q.
Proof.
  intros _ (min_q & max_q & Hle & _ & -> & ->)%histogram_axis_inv.
  rewrite np_arange_length, arange_count, length_seqZ by done.
  split; [lia|]. intros i t [-> Hi]%lookup_seqZ.
  eexists _, _.
  split; [apply np_arange_lookup; rewrite arange_count by done; lia|].
  split; [apply np_arange_lookup; rewrite arange_count by done; lia|].
  rewrite Nat2Z.inj_succ. unfold Z.succ. rewrite !inject_Z_plus.
  split; field.
Qed.

Lemma np_arange_lookup_inv start stop step (i : nat) (x : Q) :
  np_arange start stop step !! i = Some x →
  (i < Z.to_nat (Qceiling ((stop - start) / step)))%nat ∧
  x = (start + inject_Z (Z.of_nat i) * step)%Q.
Proof.
  unfold np_arange. rewrite list_lookup_fmap.
  destruct (seq _ _ !! i) as [j|] eqn:E; [|done].
  apply lookup_seq in E as [-> Hi]. by intros [= <-].
Qed.

(** An integer within one half of an integer is that integer. *)
Lemma within_half (t z : Z) :
  (inject_Z t - (1 # 2) <= inject_Z z)%Q →
  (inject_Z z <= inject_Z t + (1 # 2))%Q →
  z = t.
Proof.
  intros Hlo Hhi.
  assert (inject_Z (2 * t - 1) <= inject_Z (2 * z))%Q as H1.
  { unfold Z.sub. rewrite inject_Z_plus, !inject_Z_mult, inject_Z_opp.
    change (inject_Z 2) with 2%Q. change (inject_Z 1) with 1%Q. lra. }
  assert (inject_Z (2 * z) <= inject_Z (2 * t + 1))%Q as H2.
  { rewrite inject_Z_plus, !inject_Z_mult.
    change (inject_Z 2) with 2%Q. change (inject_Z 1) with 1%Q. lra. }
  rewrite <-Zle_Qle in H1, H2. lia.
Qed.

(** X10.  The bins are aligned to the integers: between two consecutive
    edges, ends included, lies exactly one integer, the tick of that bin,
    and no edge is an integer.  Every score of the column is therefore
    strictly inside one bin, so that it does not matter to which side
    [hist] counts a value on an edge. *)
Theorem histogram_bins_aligned qs bins ticks :
  exact_scores qs →
  histogram_axis qs = Returns (bins, ticks) →
  (∀ (i : nat) (lo hi : Q) (z : Z),
     bins !! i = Some lo → bins !! S i = Some hi →
     ((lo <= inject_Z z)%Q ∧ (inject_Z z <= hi)%Q ↔ ticks !! i = Some z)) ∧
  (∀ (b : Q) (z : Z), b ∈ bins → ¬ (b == inject_Z z)%Q) ∧
  (∀ q : Z, q ∈ qs →
     ∃ (i : nat) (lo hi : Q),
       bins !! i = Some lo ∧ bins !! S i = Some hi ∧
       (lo < inject_Z q)%Q ∧ (inject_Z q < hi)%Q).
Proof.
  intros _ Haxis.
  destruct (histogram_axis_inv _ _ _ Haxis)
    as (min_q & max_q & Hle & Hin & -> & ->).
  split; [|split].
  - intros i lo hi z [Hi ->]%np_arange_lookup_inv [HSi ->]%np_arange_lookup_inv.
    rewrite arange_count in Hi, HSi by done.
    rewrite lookup_seqZ. rewrite Nat2Z.inj_succ. unfold Z.succ.
    rewrite !inject_Z_plus. change (inject_Z 1) with 1%Q. split.
    + intros [Hlo Hhi]. split; [|lia].
      apply (within_half (min_q + Z.of_nat i) z);
        rewrite inject_Z_plus; lra.
    + intros [-> _]. rewrite inject_Z_plus. split; lra.
  - intros b z [i Hi]%list_elem_of_lookup.
    apply np_arange_lookup_inv in Hi as [_ ->]. intros Heq.
    assert (inject_Z (2 * (min_q + Z.of_nat i) - 1) == inject_Z (2 * z))%Q as H.
    { unfold Z.sub. rewrite inject_Z_plus, !inject_Z_mult, inject_Z_opp.
      rewrite inject_Z_plus, <-Heq. field. }
    apply (proj1 (inject_Z_injective _ _)) in H. lia.
  - intros q Hq. specialize (Hin q Hq).
    exists (Z.to_nat (q - min_q)). eexists _, _.
    split; [apply np_arange_lookup; rewrite arange_count by done; lia|].
    split; [apply np_arange_lookup; rewrite arange_count by done; lia|].
    rewrite Nat2Z.inj_succ, Z2Nat.id by lia. unfold Z.succ, Z.sub.
    rewrite !inject_Z_plus, inject_Z_opp. change (inject_Z 1) with 1%Q.
    split; lra.
Qed.

Lemma histogram_bins_centred_witness :
  exact_scores [5; 3; 8; 4] ∧
  histogram_axis [5; 3; 8; 4] =
    Returns ([2.50; 3.50; 4.50; 5.50; 6.50; 7.50; 8.50]%Q, [3; 4; 5; 6; 7; 8]) ∧
  length [2.50; 3.50; 4.50; 5.50; 6.50; 7.50; 8.50]%Q = S (length [3; 4; 5; 6; 7; 8]) ∧
  ∀ (i : nat) (t : Z), [3; 4; 5; 6; 7; 8] !! i = Some t →
    ∃ lo hi, [2.50; 3.50; 4.50; 5.50; 6.50; 7.50; 8.50]%Q !! i = Some lo ∧
             [2.50; 3.50; 4.50; 5.50; 6.50; 7.50; 8.50]%Q !! S i = Some hi ∧
             (lo == inject_Z t - (1 # 2))%Q ∧ (hi == inject_Z t + (1 # 2))%Q.
Proof.
  assert (exact_scores [5; 3; 8; 4]) as H
    by (repeat constructor).
  split; [exact H|]. split; [reflexivity|].
  apply (histogram_bins_centred [5; 3; 8; 4]); [exact H | reflexivity].
Defined.

Lemma histogram_bins_aligned_witness :
  exact_scores [5; 3; 8; 4] ∧
  histogram_axis [5; 3; 8; 4] =
    Returns ([2.50; 3.50; 4.50; 5.50; 6.50; 7.50; 8.50]%Q, [3; 4; 5; 6; 7; 8]) ∧
  ∀ q : Z, q ∈ [5; 3; 8; 4] →
    ∃ (i : nat) (lo hi : Q),
      [2.50; 3.50; 4.50; 5.50; 6.50; 7.50; 8.50]%Q !! i = Some lo ∧
      [2.50; 3.50; 4.50; 5.50; 6.50; 7.50; 8.50]%Q !! S i = Some hi ∧
      (lo < inject_Z q)%Q ∧ (inject_Z q < hi)%Q.
Proof.
  assert (exact_scores [5; 3; 8; 4]) as H
    by (repeat constructor).
  split; [exact H|]. split; [reflexivity|].
  destruct (histogram_bins_aligned [5; 3; 8; 4]
              [2.50; 3.50; 4.50; 5.50; 6.50; 7.50; 8.50]%Q [3; 4; 5; 6; 7; 8])
    as (_ & _ & H3); [exact H | reflexivity | exact H3].
Defined.

(** ** The strongest correlations *)

Lemma series_get_elem (s : lseries) l v :
  NoDup (s.*1) → (l, v) ∈ s → series_get s l = v.
Proof.
  induction s as [|[l' v'] s IH]; [by intros _ ?%elem_of_nil|].
  rewrite fmap_cons, NoDup_cons. intros [Hl' Hnd] Hin. cbn [series_get].
  apply elem_of_cons in Hin as [[= -> ->]|Hin].
  - by rewrite decide_True.
  - rewrite decide_False; [by apply IH|].
    intros ->. apply Hl'. apply list_elem_of_fmap. by exists (l, v).
Qed.

Lemma relabel_self (s : lseries) :
  NoDup (s.*1) → (λ l, (l, series_get s l)) <$> s.*1 = s.
Proof.
  intros Hnd. rewrite <-list_fmap_compose.
  transitivity (id <$> s); [|apply list_fmap_id].
  apply Forall_fmap_ext, Forall_forall. intros [l v] Hin. simpl.
  by rewrite (series_get_elem s l v).
Qed.

Lemma reindex_NoDup (s : lseries) new_index :
  NoDup (s.*1) →
  reindex s new_index = Returns ((λ l, (l, series_get s l)) <$> new_index).
Proof.
  intros Hnd. unfold reindex. case_bool_decide as Heq.
  - subst new_index. by rewrite relabel_self.
  - by rewrite bool_decide_eq_true_2.
Qed.

Lemma series_abs_labels (s : lseries) : (series_abs s).*1 = s.*1.
Proof.
  unfold series_abs. rewrite <-list_fmap_compose. apply list_fmap_ext.
  by intros _ [l v] _.
Qed.

Lemma StronglySorted_fmap_inv {A B} (f : A → B) (R : relation B) (l : list A) :
  StronglySorted R (f <$> l) → StronglySorted (λ x y, R (f x) (f y)) l.
Proof.
  induction l as [|x l IH]; [constructor|].
  rewrite fmap_cons, !StronglySorted_cons, Forall_fmap. intros [Hx Hl].
  split; [done | by apply IH].
Qed.

Lemma zip_labels_sublist (labels : list string) (xs : list float64) :
  (zip labels xs).*1 `sublist_of` labels.
Proof.
  revert xs. induction labels as [|l labels IH]; intros [|x xs]; simpl;
    try apply sublist_nil_l.
  apply sublist_skip, IH.
Qed.

Lemma filter_labels_sublist (P : string * float64 → Prop)
    `{∀ e, Decision (P e)} (s : lseries) :
  (filter P s).*1 `sublist_of` s.*1.
Proof. apply fmap_sublist, sublist_filter. Qed.

Lemma filter_all {A} (P : A → Prop) `{∀ x, Decision (P x)} (l : list A) :
  Forall P l → filter P l = l.
Proof.
  induction 1 as [|x l Hx _ IH]; [done|].
  by rewrite filter_cons_True, IH.
Qed.

Lemma drop_label_length (s : lseries) (t : string) :
  NoDup (s.*1) → t ∈ (s.*1) →
  length (filter (λ e, e.1 ≠ t) s) = (length s - 1)%nat.
Proof.
  induction s as [|[l v] s IH]; [by intros _ ?%elem_of_nil|].
  rewrite fmap_cons, NoDup_cons, filter_cons. cbn [fst length].
  intros [Hl Hnd] Hin. destruct (decide (l = t)) as [->|Hne].
  - rewrite decide_False by (intros H; by apply H).
    rewrite filter_all; [lia|].
    apply Forall_forall. intros [l' v'] Hin'. simpl. intros ->. apply Hl.
    apply list_elem_of_fmap. by exists (t, v').
  - rewrite decide_True by done. cbn [length].
    apply elem_of_cons in Hin as [->|Hin]; [done|].
    rewrite IH by done. destruct s; [by apply elem_of_nil in Hin|].
    cbn [length]. lia.
Qed.

Section top_correlations.
Context `{SortValues}.

(** The function in closed form, for a series with distinct labels. *)
Lemma top_correlations_with_spec t m k xs :
  NoDup (row_labels m) →
  columns m !! t = Some xs →
  let col := zip (row_labels m) xs in
  let s := filter (λ e, e.1 ≠ t) col in
  let sorted := sort_values_desc (series_abs s) in
  top_correlations_with t m k =
  if bool_decide (t ∈ (col.*1))
  then Returns (slice_to k ((λ l, (l, series_get s l)) <$> sorted.*1))
  else Raises (Builtin (KeyError t)).
Proof.
  intros Hnd Hxs col s sorted.
  unfold top_correlations_with, matrix_getitem, series_drop. rewrite Hxs.
  cbn [mbind outcome_bind]. fold col. case_bool_decide; [|done].
  cbn [mbind outcome_bind]. fold s. rewrite reindex_NoDup; [done|].
  eapply sublist_NoDup; [|apply filter_labels_sublist].
  eapply sublist_NoDup; [exact Hnd | apply zip_labels_sublist].
Qed.

(** The reindexed series before it is cut: the entries of [s], rearranged
    so that their absolute values are in the sorted order. *)
Lemma reindexed_by_abs (s : lseries) :
  NoDup (s.*1) →
  let sorted := sort_values_desc (series_abs s) in
  let r := (λ l, (l, series_get s l)) <$> sorted.*1 in
  r ≡ₚ s ∧ series_abs r = sorted.
Proof.
  intros Hnd sorted r. split.
  - unfold r.
    transitivity ((λ l, (l, series_get s l)) <$> s.*1);
      [|by rewrite relabel_self].
    apply fmap_Permutation. rewrite <-(series_abs_labels s).
    apply fmap_Permutation, sort_values_perm.
  - unfold r, series_abs. rewrite <-!list_fmap_compose.
    transitivity (id <$> sorted); [|apply list_fmap_id].
    apply Forall_fmap_ext, Forall_forall. intros e He. simpl.
    assert (e ∈ series_abs s) as Habs by (by rewrite <-(sort_values_perm _)).
    apply list_elem_of_fmap in Habs as ([l v] & -> & Hin). simpl.
    by rewrite (series_get_elem s l v).
Qed.

Lemma top_correlations_with_inv t m k xs r :
  NoDup (row_labels m) →
  columns m !! t = Some xs →
  top_correlations_with t m k = Returns r →
  ∃ r_full,
    t ∈ (zip (row_labels m) xs).*1 ∧
    r = slice_to k r_full ∧
    r_full ≡ₚ filter (λ e, e.1 ≠ t) (zip (row_labels m) xs) ∧
    NoDup (r_full.*1) ∧
    StronglySorted
      (λ e1 e2, sorts_before (float_abs e1.2) (float_abs e2.2)) r_full.
Proof.
  intros Hnd Hxs. rewrite (top_correlations_with_spec t m k xs Hnd Hxs).
  cbn zeta. case_bool_decide as Ht; [|done]. intros [= <-].
  set (s := filter (λ e, e.1 ≠ t) (zip (row_labels m) xs)).
  assert (NoDup (s.*1)) as Hs.
  { eapply sublist_NoDup; [|apply filter_labels_sublist].
    eapply sublist_NoDup; [exact Hnd | apply zip_labels_sublist]. }
  destruct (reindexed_by_abs s Hs) as [Hperm Habs].
  eexists. split; [done|]. split; [reflexivity|]. split; [exact Hperm|].
  split; [by rewrite Hperm|].
  apply (StronglySorted_fmap_inv (prod_map id float_abs)
           (λ e1 e2, sorts_before e1.2 e2.2)).
  fold (series_abs ((λ l, (l, series_get s l)) <$>
                      (sort_values_desc (series_abs s)).*1)).
  rewrite Habs. apply sort_values_sorted.
Qed.

Lemma slice_to_sublist {A} (k : Z) (l : list A) : slice_to k l `sublist_of` l.
Proof. unfold slice_to. case_decide; apply sublist_take. Qed.

Lemma slice_to_take_drop {A} (k : Z) (l : list A) :
  ∃ n, slice_to k l = take n l ∧ l = slice_to k l ++ drop n l.
Proof.
  unfold slice_to. case_decide; eexists; (split; [reflexivity|]);
    by rewrite take_drop.
Qed.

Lemma slice_to_length {A} (k : Z) (l : list A) :
  length (slice_to k l) =
  if decide (0 ≤ k) then (Z.to_nat k `min` length l)%nat
  else (length l - Z.to_nat (- k))%nat.
Proof. unfold slice_to. case_decide; rewrite length_take; lia. Qed.

(** X11.  [top_correlations_with] returns exactly when the target names
    a column of the matrix and one of the rows of that column; in every
    other case it raises [KeyError] for the target, from the column lookup
    or from [drop]. *)
Theorem top_correlations_key_error t m k :
  NoDup (row_labels m) →
  (finishes (top_correlations_with t m k) ↔
     ∃ xs, columns m !! t = Some xs ∧ t ∈ (zip (row_labels m) xs).*1) ∧
  (¬ finishes (top_correlations_with t m k) →
     top_correlations_with t m k = Raises (Builtin (KeyError t))).
Proof.
  intros Hnd. destruct (columns m !! t) as [xs|] eqn:Hxs.
  - rewrite (top_correlations_with_spec t m k xs Hnd Hxs). cbn zeta.
    case_bool_decide as Ht.
    + split; [|intros Hf; destruct Hf; by eexists].
      split; [intros _; by exists xs | intros _; by eexists].
    + split; [|done]. split; [by intros [? ?]|].
      by intros (? & [= <-] & ?).
  - unfold top_correlations_with, matrix_getitem. rewrite Hxs.
    split; [|done]. split; [by intros [? ?] | by intros (? & ? & _)].
Qed.

(** X12.  What is returned is taken from the target's column with the
    signs the correlations have there, although the order is by absolute
    value: every returned entry is the entry of some row of that column,
    the target's own row is never among them, and no label is returned
    twice. *)
Theorem top_correlations_entries t m k xs r :
  NoDup (row_labels m) →
  columns m !! t = Some xs →
  top_correlations_with t m k = Returns r →
  NoDup (fst <$> r) ∧
  (t ∉ fst <$> r) ∧
  ∀ l v, (l, v) ∈ r →
    ∃ i : nat, row_labels m !! i = Some l ∧ xs !! i = Some v.
Proof.
  intros Hnd Hxs Hr.
  destruct (top_correlations_with_inv _ _ _ _ _ Hnd Hxs Hr)
    as (r_full & Ht & -> & Hperm & Hnd' & _).
  pose proof (slice_to_sublist k r_full) as Hsub.
  assert (∀ e, e ∈ slice_to k r_full →
            e.1 ≠ t ∧ e ∈ zip (row_labels m) xs) as Hin.
  { intros e He. apply (λ H, elem_of_sublist _ _ _ H Hsub) in He.
    rewrite Hperm in He. by apply list_elem_of_filter in He. }
  split; [|split].
  - eapply sublist_NoDup; [exact Hnd' | by apply fmap_sublist].
  - intros ([l v] & -> & He)%list_elem_of_fmap. by apply Hin in He as [? _].
  - intros l v [_ He]%Hin.
    apply list_elem_of_lookup in He as [i Hi]. exists i.
    apply lookup_zip_with_Some in Hi as (l' & v' & [= <- <-] & ? & ?). done.
Qed.

(** X13.  How many entries are returned: for [k >= 0] the first [k], or
    all rows but the target's if there are fewer; for [k < 0] all rows but
    the target's except the last [-k]. *)
Theorem top_correlations_length t m k xs r :
  NoDup (row_labels m) →
  columns m !! t = Some xs →
  top_correlations_with t m k = Returns r →
  let n := (length (row_labels m) `min` length xs)%nat in
  length r =
  if decide (0 ≤ k) then (Z.to_nat k `min` (n - 1))%nat
  else (n - 1 - Z.to_nat (- k))%nat.
Proof.
  intros Hnd Hxs Hr.
  destruct (top_correlations_with_inv _ _ _ _ _ Hnd Hxs Hr)
    as (r_full & Ht & -> & Hperm & _ & _).
  cbn zeta.
  rewrite slice_to_length, (Permutation_length Hperm), drop_label_length,
    length_zip_with; [done| |done].
  eapply sublist_NoDup; [exact Hnd | apply zip_labels_sublist].
Qed.

(** X14.  The entries returned are the strongest: they are in the order
    of decreasing absolute value, and every row of the column that is left
    out, other than the target's own, has an absolute value no greater
    than that of each returned entry; a NaN correlation counts as weaker
    than every number. *)
Theorem top_correlations_strongest t m k xs r :
  NoDup (row_labels m) →
  columns m !! t = Some xs →
  top_correlations_with t m k = Returns r →
  StronglySorted (λ e1 e2, sorts_before (float_abs e1.2) (float_abs e2.2)) r ∧
  ∀ l v, (l, v) ∈ zip (row_labels m) xs → l ≠ t → (l, v) ∉ r →
    ∀ e, e ∈ r → sorts_before (float_abs e.2) (float_abs v).
Proof.
  intros Hnd Hxs Hr.
  destruct (top_correlations_with_inv _ _ _ _ _ Hnd Hxs Hr)
    as (r_full & Ht & -> & Hperm & _ & Hsorted).
  destruct (slice_to_take_drop k r_full) as (n & Htake & Hsplit).
  rewrite Hsplit in Hsorted. apply StronglySorted_app in Hsorted
    as (Hcross & Hr' & _).
  split; [exact Hr'|]. intros l v Hin Hne Hout e He.
  apply (Hcross e (l, v) He).
  assert ((l, v) ∈ r_full) as Hfull.
  { rewrite Hperm. by apply list_elem_of_filter. }
  rewrite Hsplit in Hfull. by apply elem_of_app in Hfull as [?|?].
Qed.

(** X15.  The guarded call of lines 108-110 cannot fail on a correlation
    matrix: if there is no quality column nothing is computed, otherwise
    the quality row exists as well and the eight strongest correlations,
    or all others if there are fewer, are returned, never quality's
    correlation with itself. *)
Theorem top_quality_correlations_return m :
  corr_matrix m →
  ∃ o,
    top_quality_correlations m = Returns o ∧
    (o = None ↔ columns m !! "quality"%string = None) ∧
    ∀ r, o = Some r →
      length r = (8 `min` (length (row_labels m) - 1))%nat ∧
      "quality"%string ∉ (r.*1).
Proof.
  intros (Hnd & Hsq & Hlen). unfold top_quality_correlations.
  case_bool_decide as Hq.
  - destruct Hq as [xs Hxs].
    assert (length xs = length (row_labels m)) as Hxl by exact (Hlen _ _ Hxs).
    rewrite (top_correlations_with_spec _ m 8 xs Hnd Hxs). cbn zeta.
    rewrite fst_zip by lia. rewrite bool_decide_eq_true_2
      by (apply Hsq; by eexists).
    cbn [mbind outcome_bind]. eexists. split; [reflexivity|].
    split; [split; [done | by rewrite Hxs]|]. intros r [= <-].
    set (s := filter (λ e, e.1 ≠ "quality"%string) (zip (row_labels m) xs)).
    assert (NoDup (s.*1)) as Hs.
    { eapply sublist_NoDup; [|apply filter_labels_sublist].
      eapply sublist_NoDup; [exact Hnd | apply zip_labels_sublist]. }
    destruct (reindexed_by_abs s Hs) as [Hperm _]. split.
    + rewrite slice_to_length, (Permutation_length Hperm). unfold s.
      rewrite drop_label_length, length_zip_with.
      * rewrite decide_True by lia. lia.
      * eapply sublist_NoDup; [exact Hnd | apply zip_labels_sublist].
      * rewrite fst_zip by lia. apply Hsq. by eexists.
    + intros ([l v] & Heq & He)%list_elem_of_fmap.
      apply (λ H, elem_of_sublist _ _ _ H (slice_to_sublist _ _)) in He.
      rewrite Hperm in He. apply list_elem_of_filter in He as [Hne _].
      by apply Hne.
  - eexists. split; [reflexivity|]. split; [|done].
    split; [intros _|done]. destruct (columns m !! "quality"%string) eqn:E;
      [|done]. destruct Hq. by eexists.
Qed.
End top_correlations.

(** ** The theorems on correlations at a sample matrix *)

Lemma sample_corr_labels : NoDup (row_labels sample_corr).
Proof. apply (bool_decide_unpack _). vm_compute. exact I. Defined.

Lemma sample_corr_square : corr_matrix sample_corr.
Proof.
  split; [exact sample_corr_labels|]. split.
  - intros c. split.
    + intros Hc. unfold sample_corr in Hc; cbn [row_labels] in Hc.
      rewrite !elem_of_cons, elem_of_nil in Hc.
      destruct Hc as [->|[->|[->|[]]]]; eexists; reflexivity.
    + intros [xs Hxs]. unfold sample_corr in *; cbn [row_labels columns] in *.
      rewrite !lookup_insert, lookup_empty in Hxs.
      rewrite !elem_of_cons.
      repeat case_decide; subst; try discriminate Hxs; tauto.
  - unfold sample_corr; cbn [row_labels columns].
    repeat apply map_Forall_insert_2; try reflexivity. apply map_Forall_empty.
Defined.

Example top_quality_sample :
  @top_correlations_with merge_sort_values "quality" sample_corr 8 =
  Returns [("alcohol"%string, Fin 0.48); ("pH"%string, Fin (-0.06))].
Proof. reflexivity. Qed.

Lemma top_correlations_key_error_witness :
  NoDup (row_labels sample_corr) ∧
  (finishes (@top_correlations_with merge_sort_values "density" sample_corr 8) ↔
     ∃ xs, columns sample_corr !! "density"%string = Some xs ∧
           "density"%string ∈ (zip (row_labels sample_corr) xs).*1) ∧
  (¬ finishes (@top_correlations_with merge_sort_values "density" sample_corr 8) →
     @top_correlations_with merge_sort_values "density" sample_corr 8 =
     Raises (Builtin (KeyError "density"))).
Proof.
  split; [exact sample_corr_labels|].
  apply (@top_correlations_key_error merge_sort_values "density" sample_corr 8).
  exact sample_corr_labels.
Defined.

Lemma top_correlations_entries_witness :
  NoDup (row_labels sample_corr) ∧
  @top_correlations_with merge_sort_values "quality" sample_corr 8 =
    Returns [("alcohol"%string, Fin 0.48); ("pH"%string, Fin (-0.06))] ∧
  NoDup (fst <$> [("alcohol"%string, Fin 0.48); ("pH"%string, Fin (-0.06))]) ∧
  ("quality"%string ∉
     fst <$> [("alcohol"%string, Fin 0.48); ("pH"%string, Fin (-0.06))]) ∧
  ∀ l v, (l, v) ∈ [("alcohol"%string, Fin 0.48); ("pH"%string, Fin (-0.06))] →
    ∃ i : nat, row_labels sample_corr !! i = Some l ∧
               [Fin 0.48; Fin (-0.06); Fin 1] !! i = Some v.
Proof.
  split; [exact sample_corr_labels|]. split; [reflexivity|].
  apply (@top_correlations_entries merge_sort_values "quality" sample_corr 8);
    [exact sample_corr_labels | reflexivity | reflexivity].
Defined.

Lemma top_correlations_length_witness :
  NoDup (row_labels sample_corr) ∧
  @top_correlations_with merge_sort_values "pH" sample_corr (-1) =
    Returns [("alcohol"%string, Fin 0.2)] ∧
  length [("alcohol"%string, Fin 0.2)] = (3 `min` 3 - 1 - Z.to_nat (- (-1)))%nat.
Proof.
  split; [exact sample_corr_labels|]. split; [reflexivity|].
  apply (@top_correlations_length merge_sort_values "pH" sample_corr (-1)
           [Fin 0.2; Fin 1; Fin (-0.06)]);
    [exact sample_corr_labels | reflexivity | reflexivity].
Defined.

Lemma top_correlations_strongest_witness :
  NoDup (row_labels sample_corr) ∧
  @top_correlations_with merge_sort_values "pH" sample_corr 1 =
    Returns [("alcohol"%string, Fin 0.2)] ∧
  ∀ e, e ∈ [("alcohol"%string, Fin 0.2)] →
    sorts_before (float_abs e.2) (float_abs (Fin (-0.06))).
Proof.
  split; [exact sample_corr_labels|]. split; [reflexivity|].
  destruct (@top_correlations_strongest merge_sort_values "pH" sample_corr 1
              [Fin 0.2; Fin 1; Fin (-0.06)] [("alcohol"%string, Fin 0.2)])
    as [_ H]; [exact sample_corr_labels | reflexivity | reflexivity |].
  apply (H "quality"%string (Fin (-0.06))).
  - apply list_elem_of_lookup. by exists 2%nat.
  - done.
  - by intros [= ]%list_elem_of_singleton.
Defined.

Lemma top_quality_correlations_return_witness :
  corr_matrix sample_corr ∧
  ∃ o,
    @top_quality_correlations merge_sort_values sample_corr = Returns o ∧
    (o = None ↔ columns sample_corr !! "quality"%string = None) ∧
    ∀ r, o = Some r →
      length r = (8 `min` (length (row_labels sample_corr) - 1))%nat ∧
      "quality"%string ∉ r.*1.
Proof.
  split; [exact sample_corr_square|].
  apply (@top_quality_correlations_return merge_sort_values sample_corr).
  exact sample_corr_square.
Defined.
